(** * The persisting query-function wrapper of [persister.ts]

    A shallow embedding of [createPersister]
    (examples/vue/persister/src/persister.ts).

    - JavaScript values are the data-only values [JsVal]; numbers are
      [number]: an integer-valued double (what [Date.now] and the counters
      of the code produce), or one of the three non-finite doubles.
    - The wrapper is an [async] function.  Its body is the program tree
      [createPersister], one node per call that leaves the function
      ([getQueryState], [getItem], [removeItem], [setItem], [Date.now],
      [build], [queryFn]); the answer of the outside world selects the
      continuation.  [exec] relates the tree to the traces it can produce,
      [run] executes it against an environment.
    - [serialize] and [deserialize] are functions that return or throw.
      Their defaults, [JSON.stringify] and [JSON.parse] (lines 69-70),
      belong to the runtime and not to the file: like [hashKey] of
      query-core they are parameters of [createPersister], and every
      property of the wrapper holds whatever they do.
    - No statement is made about a [deserialize] whose result is neither
      a record of the declared type [PersistedQuery] nor [null] or
      [undefined].
    - The scenarios run the wrapper in an environment in memory, with a
      printer and a reader of JSON text in the place of the two
      defaults. *)

From Stdlib Require Import ZArith List String Ascii Bool Lia DecimalN.
From stdpp Require Import base option gmap strings.

Import ListNotations.
Local Open Scope Z_scope.

(** ** JavaScript values *)

(** A JavaScript number, as far as this program computes with it: [Fin z]
    is the double of integer value [z] (exact while [|z| <= 2^53], which
    covers epoch milliseconds and counters; the two zeros are identified),
    the rest are [NaN], [Infinity] and [-Infinity]. *)
Inductive number : Type :=
| Fin (z : Z)
| NaN
| PosInf
| NegInf.

(** Data-only JavaScript values.  A string is a sequence of code units
    below 256; an object is the list of its own enumerable properties in
    enumeration order. *)
#[local] Unset Elimination Schemes.
Inductive JsVal : Type :=
| JUndefined
| JNull
| JBool (b : bool)
| JNum (n : number)
| JStr (s : string)
| JArr (elems : list JsVal)
| JObj (props : list (string * JsVal)).
#[local] Set Elimination Schemes.

(** [x - y] on numbers. *)
Definition num_sub (x y : number) : number :=
  match x, y with
  | NaN, _ | _, NaN => NaN
  | Fin a, Fin b => Fin (a - b)
  | Fin _, PosInf => NegInf
  | Fin _, NegInf => PosInf
  | PosInf, PosInf => NaN
  | PosInf, _ => PosInf
  | NegInf, NegInf => NaN
  | NegInf, _ => NegInf
  end.

(** [x > y] on numbers; every comparison with [NaN] is false. *)
Definition num_gt (x y : number) : bool :=
  match x, y with
  | NaN, _ | _, NaN => false
  | Fin a, Fin b => b <? a
  | Fin _, PosInf => false
  | Fin _, NegInf => true
  | PosInf, PosInf => false
  | PosInf, _ => true
  | NegInf, _ => false
  end.

(** [x <= y] and [x === y] on numbers, used to state properties. *)
Definition num_le (x y : number) : bool :=
  match x, y with
  | NaN, _ | _, NaN => false
  | Fin a, Fin b => a <=? b
  | Fin _, PosInf => true
  | Fin _, NegInf => false
  | PosInf, PosInf => true
  | PosInf, _ => false
  | NegInf, _ => true
  end.


(** ToBoolean on a number: [0] and [NaN] are falsy. *)
Definition num_truthy (n : number) : bool :=
  match n with
  | Fin z => negb (z =? 0)
  | NaN => false
  | PosInf | NegInf => true
  end.

(** ToBoolean on a string: only the empty string is falsy. *)
Definition str_truthy (s : string) : bool :=
  match s with
  | EmptyString => false
  | String _ _ => true
  end.

(** ToBoolean on a value. *)
Definition truthy (v : JsVal) : bool :=
  match v with
  | JUndefined | JNull => false
  | JBool b => b
  | JNum n => num_truthy n
  | JStr s => str_truthy s
  | JArr _ | JObj _ => true
  end.

(** ** Results of calls *)

(** What [await] sees of a promise (or of a plain value, or of a call
    that throws): the fulfilment value or the rejection reason. *)
Inductive Settled (A : Type) : Type :=
| Fulfilled (a : A)
| Rejected (reason : JsVal).
Arguments Fulfilled {A} a.
Arguments Rejected {A} reason.

(** What a synchronous call does: it returns or it throws. *)
Inductive Outcome (A : Type) : Type :=
| Returns (a : A)
| Throws (exn : JsVal).
Arguments Returns {A} a.
Arguments Throws {A} exn.

(** ** The data model of the file *)

Definition QueryKey : Type := JsVal.

(** [QueryState], with the fields of the literal written on lines
    110-123. *)
Record QueryState : Type := mkQueryState {
  data : JsVal;
  dataUpdateCount : number;
  dataUpdatedAt : number;
  status : string;
  error : JsVal;
  errorUpdateCount : number;
  errorUpdatedAt : number;
  fetchFailureCount : number;
  fetchFailureReason : JsVal;
  fetchMeta : JsVal;
  fetchStatus : string;
  isInvalidated : bool
}.

(** [PersistedQuery] (lines 11-17).  The timestamp is optional here
    because line 82 tests for a record that has none. *)
Record PersistedQuery : Type := mkPersistedQuery {
  buster : string;
  timestamp : option number;
  queryHash : string;
  queryKey : QueryKey;
  state : QueryState
}.

Record QueryFunctionContext : Type := mkContext {
  ctx_queryKey : QueryKey
}.

(** ** The wrapper *)

(** Errors are known by their name. *)
Definition SyntaxError : JsVal := JStr "SyntaxError".
Definition TypeError : JsVal := JStr "TypeError".

(** [StoragePersisterOptions] (lines 31-61); an optional field that is
    left out is [None].  [QC] and [ST] are the types of the query client
    and of the storage object.  [serialize] and [deserialize] are
    functions of the caller: a call returns or throws.  What
    [deserialize] returns is cast to [PersistedQuery] without a check
    (line 80): it is a record of that type, or it is [null] or
    [undefined] ([None]), whose timestamp line 82 cannot read. *)
Record StoragePersisterOptions (QC ST : Type) : Type := mkOptions {
  o_queryClient : QC;
  o_storage : option ST;
  o_serialize : option (PersistedQuery -> Outcome string);
  o_deserialize : option (string -> Outcome (option PersistedQuery));
  o_buster : option string;
  o_maxAge : option number
}.
Arguments mkOptions {QC ST}.
Arguments o_queryClient {QC ST}.
Arguments o_storage {QC ST}.
Arguments o_serialize {QC ST}.
Arguments o_deserialize {QC ST}.
Arguments o_buster {QC ST}.
Arguments o_maxAge {QC ST}.

(** The body of an invocation: a tree whose nodes are the calls that
    leave the wrapper, each with the continuation that receives the
    answer.  [Return] is the settlement of the promise the wrapper
    returns.  The answer of [getItem], [removeItem] and [queryFn] is
    awaited.  The call of [setItem] is not (line 107): it throws, which
    a synchronous [Storage] (line 39) does, or it returns, and the
    [Settled] it returns with is what becomes of the promise it gave (a
    plain return value counts as fulfilled). *)
Inductive Prog : Type :=
| Return (r : Settled JsVal)
| GetQueryState (key : QueryKey) (k : option QueryState -> Prog)
| GetItem (key : string) (k : Settled (option string) -> Prog)
| RemoveItem (key : string) (k : Settled unit -> Prog)
| SetItem (key value : string) (k : Outcome (Settled unit) -> Prog)
| DateNow (k : Z -> Prog)
| Build (key : QueryKey) (hash : string) (st : QueryState) (k : Prog)
| QueryFn (context : QueryFunctionContext) (k : Settled JsVal -> Prog).

(** [await]: a rejection (or a throw of the awaited call) leaves the
    [async] function, which has no [try]; the promise it returned is
    rejected with the same reason. *)
Definition await {A : Type} (call : (Settled A -> Prog) -> Prog)
    (k : A -> Prog) : Prog :=
  call (fun answer =>
          match answer with
          | Fulfilled a => k a
          | Rejected reason => Return (Rejected reason)
          end).

(** [!queryState?.data] (line 77). *)
Definition no_data (queryState : option QueryState) : bool :=
  match queryState with
  | Some st => negb (truthy (data st))
  | None => true
  end.

(** [if (storedData)] (line 79). *)
Definition stored_truthy (storedData : option string) : option string :=
  match storedData with
  | Some text => if str_truthy text then Some text else None
  | None => None
  end.

(** [if (persistedQuery.timestamp)] (line 82). *)
Definition timestamp_truthy (pq : PersistedQuery) : option number :=
  match timestamp pq with
  | Some n => if num_truthy n then Some n else None
  | None => None
  end.

(** [Date.now() - persistedQuery.timestamp > maxAge] (line 83). *)
Definition expired (now : Z) (ts maxAge : number) : bool :=
  num_gt (num_sub (Fin now) ts) maxAge.

(** [persistedQuery.buster !== buster] (line 84). *)
Definition busted (pq : PersistedQuery) (configured : string) : bool :=
  negb (String.eqb (buster pq) configured).

(** The record written on lines 109-128; [updatedAt] and [now] are the
    two readings of the clock, in the order the literal takes them. *)
Definition fresh_record (queryFnResult : JsVal) (key : QueryKey)
    (hash : string) (updatedAt now : Z) (configured : string) : PersistedQuery :=
  {| state := {| data := queryFnResult;
                 dataUpdateCount := Fin 0;
                 dataUpdatedAt := Fin updatedAt;
                 status := "success";
                 error := JNull;
                 errorUpdateCount := Fin 0;
                 errorUpdatedAt := Fin 0;
                 fetchFailureCount := Fin 0;
                 fetchFailureReason := JNull;
                 fetchMeta := JNull;
                 fetchStatus := "idle";
                 isInvalidated := false |};
     queryKey := key;
     queryHash := hash;
     timestamp := Some (Fin now);
     buster := configured |}.

(** The defaults of lines 67-68. *)
Definition the_buster {QC ST} (options : StoragePersisterOptions QC ST) : string :=
  default EmptyString (o_buster options).

Definition the_maxAge {QC ST} (options : StoragePersisterOptions QC ST) : number :=
  default (Fin (1000 * 60 * 60 * 24)) (o_maxAge options).

(** The defaults of lines 69-70, given what [JSON.stringify] and
    [JSON.parse] do at the declared types. *)
Definition the_serialize {QC ST} (JSON_stringify : PersistedQuery -> Outcome string)
    (options : StoragePersisterOptions QC ST) : PersistedQuery -> Outcome string :=
  default JSON_stringify (o_serialize options).

Definition the_deserialize {QC ST}
    (JSON_parse : string -> Outcome (option PersistedQuery))
    (options : StoragePersisterOptions QC ST)
  : string -> Outcome (option PersistedQuery) :=
  default JSON_parse (o_deserialize options).

Section Persister.

Context {QC ST : Type}.

(** [hashKey] of query-core: the string a query key is stored under. *)
Variable hashKey : QueryKey -> string.

(** [JSON.stringify] and [JSON.parse] of the runtime, at the types
    lines 44 and 49 declare. *)
Variable JSON_stringify : PersistedQuery -> Outcome string.
Variable JSON_parse : string -> Outcome (option PersistedQuery).

(** Lines 104-132: the fetch, the write that is not awaited, the
    result.  The literal of lines 109-128 reads the clock twice; then
    [serialize] is called, then [setItem].  There is no [try]: a throw
    of [serialize] or of [setItem] rejects the promise of the wrapper.
    What becomes of the promise that [setItem] returns is not looked
    at. *)
Definition fetch_and_persist (storage : option ST)
    (serialize : PersistedQuery -> Outcome string) (configured : string)
    (context : QueryFunctionContext) (hash : string) : Prog :=
  await (QueryFn context) (fun queryFnResult =>
    match storage with
    | Some _ =>
        DateNow (fun updatedAt =>
        DateNow (fun now =>
        match serialize (fresh_record queryFnResult (ctx_queryKey context)
                           hash updatedAt now configured) with
        | Throws exn => Return (Rejected exn)
        | Returns text =>
            SetItem hash text (fun answer =>
            match answer with
            | Throws exn => Return (Rejected exn)
            | Returns _ => Return (Fulfilled queryFnResult)
            end)
        end))
    | None => Return (Fulfilled queryFnResult)
    end).

(** [createPersister options] applied to [(queryFn, context)]
    (lines 63-134).  [queryFn] is the callee of the [QueryFn] node.
    Reading the timestamp of [null] or [undefined] throws a TypeError
    (line 82). *)
Definition createPersister (options : StoragePersisterOptions QC ST)
    (context : QueryFunctionContext) : Prog :=
  let storage := o_storage options in
  let configured := the_buster options in
  let maxAge := the_maxAge options in
  let serialize := the_serialize JSON_stringify options in
  let deserialize := the_deserialize JSON_parse options in
  let hash := hashKey (ctx_queryKey context) in
  let fetch := fetch_and_persist storage serialize configured context hash in
  GetQueryState (ctx_queryKey context) (fun queryState =>
  if no_data queryState && bool_decide (is_Some storage) then
    await (GetItem hash) (fun storedData =>
    match stored_truthy storedData with
    | Some text =>
        match deserialize text with
        | Throws exn => Return (Rejected exn)
        | Returns None => Return (Rejected TypeError)
        | Returns (Some persistedQuery) =>
            match timestamp_truthy persistedQuery with
            | Some ts =>
                DateNow (fun now =>
                if expired now ts maxAge || busted persistedQuery configured
                then await (RemoveItem hash) (fun _ => fetch)
                else
                  Build (ctx_queryKey context) hash (state persistedQuery)
                    (Return (Fulfilled (data (state persistedQuery)))))
            | None => await (RemoveItem hash) (fun _ => fetch)
            end
        end
    | None => fetch
    end)
  else fetch).

End Persister.

(** ** Executions *)

(** A call that left the wrapper, with the answer it got.  For [setItem]
    the answer is a throw of the call, or the settlement of the promise
    the call returned, which the wrapper does not wait for. *)
Inductive Event : Type :=
| EvGetQueryState (key : QueryKey) (answer : option QueryState)
| EvGetItem (key : string) (answer : Settled (option string))
| EvRemoveItem (key : string) (answer : Settled unit)
| EvSetItem (key value : string) (answer : Outcome (Settled unit))
| EvDateNow (now : Z)
| EvBuild (key : QueryKey) (hash : string) (st : QueryState)
| EvQueryFn (context : QueryFunctionContext) (answer : Settled JsVal).

(** [exec p t r]: the invocation [p] can make the calls of [t], in this
    order and with these answers, and then settle as [r]. *)
Inductive exec : Prog -> list Event -> Settled JsVal -> Prop :=
| exec_Return r : exec (Return r) [] r
| exec_GetQueryState key k a t r :
    exec (k a) t r -> exec (GetQueryState key k) (EvGetQueryState key a :: t) r
| exec_GetItem key k a t r :
    exec (k a) t r -> exec (GetItem key k) (EvGetItem key a :: t) r
| exec_RemoveItem key k a t r :
    exec (k a) t r -> exec (RemoveItem key k) (EvRemoveItem key a :: t) r
| exec_SetItem key value k a t r :
    exec (k a) t r -> exec (SetItem key value k) (EvSetItem key value a :: t) r
| exec_DateNow k now t r :
    exec (k now) t r -> exec (DateNow k) (EvDateNow now :: t) r
| exec_Build key hash st k t r :
    exec k t r -> exec (Build key hash st k) (EvBuild key hash st :: t) r
| exec_QueryFn context k a t r :
    exec (k a) t r -> exec (QueryFn context k) (EvQueryFn context a :: t) r.

(** The outside world: what each call answers in a state [W], and the
    state it leaves.  [env_getItem], [env_setItem] and [env_removeItem]
    are the three methods of the storage (lines 25-29 and 39). *)
Record Env (W : Type) : Type := mkEnv {
  env_getQueryState : QueryKey -> W -> option QueryState * W;
  env_getItem : string -> W -> Settled (option string) * W;
  env_removeItem : string -> W -> Settled unit * W;
  env_setItem : string -> string -> W -> Outcome (Settled unit) * W;
  env_now : W -> Z * W;
  env_build : QueryKey -> string -> QueryState -> W -> W;
  env_queryFn : QueryFunctionContext -> W -> Settled JsVal * W
}.
Arguments mkEnv {W}.
Arguments env_getQueryState {W}.
Arguments env_getItem {W}.
Arguments env_removeItem {W}.
Arguments env_setItem {W}.
Arguments env_now {W}.
Arguments env_build {W}.
Arguments env_queryFn {W}.

(** Running an invocation in an environment: the trace, the settlement
    and the final state. *)
Fixpoint run {W : Type} (E : Env W) (p : Prog) (w : W)
  : list Event * Settled JsVal * W :=
  match p with
  | Return r => ([], r, w)
  | GetQueryState key k =>
      let (a, w1) := env_getQueryState E key w in
      let '(t, r, w2) := run E (k a) w1 in (EvGetQueryState key a :: t, r, w2)
  | GetItem key k =>
      let (a, w1) := env_getItem E key w in
      let '(t, r, w2) := run E (k a) w1 in (EvGetItem key a :: t, r, w2)
  | RemoveItem key k =>
      let (a, w1) := env_removeItem E key w in
      let '(t, r, w2) := run E (k a) w1 in (EvRemoveItem key a :: t, r, w2)
  | SetItem key value k =>
      let (a, w1) := env_setItem E key value w in
      let '(t, r, w2) := run E (k a) w1 in (EvSetItem key value a :: t, r, w2)
  | DateNow k =>
      let (now, w1) := env_now E w in
      let '(t, r, w2) := run E (k now) w1 in (EvDateNow now :: t, r, w2)
  | Build key hash st k =>
      let w1 := env_build E key hash st w in
      let '(t, r, w2) := run E k w1 in (EvBuild key hash st :: t, r, w2)
  | QueryFn context k =>
      let (a, w1) := env_queryFn E context w in
      let '(t, r, w2) := run E (k a) w1 in (EvQueryFn context a :: t, r, w2)
  end.

(** *** Reading a trace *)

Definition is_storage_event (e : Event) : bool :=
  match e with
  | EvGetItem _ _ | EvRemoveItem _ _ | EvSetItem _ _ _ => true
  | _ => false
  end.

Definition is_write_event (e : Event) : bool :=
  match e with
  | EvSetItem _ _ _ => true
  | _ => false
  end.

Definition is_remove_event (e : Event) : bool :=
  match e with
  | EvRemoveItem _ _ => true
  | _ => false
  end.

Definition is_queryFn_event (e : Event) : bool :=
  match e with
  | EvQueryFn _ _ => true
  | _ => false
  end.

(** How many times [queryFn] was called. *)
Fixpoint queryFn_calls (t : list Event) : nat :=
  match t with
  | [] => O
  | e :: t' => if is_queryFn_event e then S (queryFn_calls t') else queryFn_calls t'
  end.

(** The first reading of the clock: the one the expiry test uses. *)
Fixpoint first_now (t : list Event) : option Z :=
  match t with
  | [] => None
  | EvDateNow now :: _ => Some now
  | _ :: t' => first_now t'
  end.

(** ** What a trace says about the lookup *)

(** The lookup found the text [text] under [hash], and [text]
    deserializes to the record [pq]. *)
Definition found (deserialize : string -> Outcome (option PersistedQuery))
    (hash : string) (t : list Event) (text : string) (pq : PersistedQuery) : Prop :=
  In (EvGetItem hash (Fulfilled (Some text))) t
  /\ str_truthy text = true
  /\ deserialize text = Returns (Some pq).

(** The item under [hash] is removed and then, the removal done,
    [queryFn] is called; it is the only call of [queryFn]. *)
Definition removes_then_fetches (context : QueryFunctionContext) (hash : string)
    (t : list Event) : Prop :=
  exists pre answer post,
    t = pre ++ EvRemoveItem hash answer :: post
    /\ queryFn_calls pre = O
    /\ (answer = Fulfilled tt ->
        exists fetched post',
          post = EvQueryFn context fetched :: post' /\ queryFn_calls post' = O).

(** ** More readings of a trace *)

Fixpoint count_events (p : Event -> bool) (t : list Event) : nat :=
  match t with
  | [] => O
  | e :: t' => if p e then S (count_events p t') else count_events p t'
  end.

Definition is_getItem_event (e : Event) : bool :=
  match e with EvGetItem _ _ => true | _ => false end.

Definition is_build_event (e : Event) : bool :=
  match e with EvBuild _ _ _ => true | _ => false end.

Definition is_clock_event (e : Event) : bool :=
  match e with EvDateNow _ => true | _ => false end.

(** The calls of the lookup phase. *)
Definition is_lookup_event (e : Event) : bool :=
  is_getItem_event e || is_remove_event e || is_build_event e.

(** The last reading of the clock: the timestamp of the record that a
    write stores. *)
Fixpoint last_now (t : list Event) : option Z :=
  match t with
  | [] => None
  | e :: t' =>
      match last_now t' with
      | Some n => Some n
      | None => match e with EvDateNow n => Some n | _ => None end
      end
  end.

(** The call is about the query of the invocation. *)
Definition concerns (context : QueryFunctionContext) (hash : string) (e : Event) : Prop :=
  match e with
  | EvGetQueryState k _ => k = ctx_queryKey context
  | EvGetItem k _ | EvRemoveItem k _ | EvSetItem k _ _ => k = hash
  | EvDateNow _ => True
  | EvBuild k h _ => k = ctx_queryKey context /\ h = hash
  | EvQueryFn c _ => c = context
  end.

(** ** A printer and a reader of JSON text, for the scenarios

    The scenarios need a codec in the place of [JSON.stringify] and
    [JSON.parse].  The one below covers a fragment of JSON: numbers that
    are integers of magnitude at most 2^53 (the non-finite ones are
    printed, as [null]), strings of code units below 256, objects whose
    keys are distinct and do not start with a digit.  On that fragment
    [print_json] is SerializeJSONProperty / SerializeJSONObject /
    SerializeJSONArray / QuoteJSONString of ECMA-262 without replacer and
    indentation, and [read_json] is a parser of the JSON grammar with
    CreateDataProperty for the members of an object.  Outside the
    fragment the answer is [PUnsupported], resp. [Throws NotModelled]: a
    mark that the codec stops there, not what the runtime does. *)

Definition chars (s : string) : list ascii := list_ascii_of_string s.

Definition hex_digit (n : N) : ascii :=
  match n with
  | 0 => "0" | 1 => "1" | 2 => "2" | 3 => "3" | 4 => "4" | 5 => "5"
  | 6 => "6" | 7 => "7" | 8 => "8" | 9 => "9" | 10 => "a" | 11 => "b"
  | 12 => "c" | 13 => "d" | 14 => "e" | _ => "f"
  end%N%char.

(** One code unit inside a quoted string (QuoteJSONString, table 75). *)
Definition escape_char (c : ascii) : list ascii :=
  let n := N_of_ascii c in
  if (n =? 8)%N then chars "\b"
  else if (n =? 9)%N then chars "\t"
  else if (n =? 10)%N then chars "\n"
  else if (n =? 12)%N then chars "\f"
  else if (n =? 13)%N then chars "\r"
  else if (n =? 34)%N then ["\"; c]%char
  else if (n =? 92)%N then ["\"; c]%char
  else if (n <? 32)%N
       then chars "\u00" ++ [hex_digit (n / 16); hex_digit (n mod 16)]
  else [c].

Fixpoint escape_string (s : string) : list ascii :=
  match s with
  | EmptyString => []
  | String c s' => escape_char c ++ escape_string s'
  end.

Definition dquote : ascii := ascii_of_N 34.

Definition QuoteJSONString (s : string) : list ascii :=
  dquote :: escape_string s ++ [dquote].

Fixpoint digits_of_uint (d : Decimal.uint) : list ascii :=
  match d with
  | Decimal.Nil => []
  | Decimal.D0 d' => "0"%char :: digits_of_uint d'
  | Decimal.D1 d' => "1"%char :: digits_of_uint d'
  | Decimal.D2 d' => "2"%char :: digits_of_uint d'
  | Decimal.D3 d' => "3"%char :: digits_of_uint d'
  | Decimal.D4 d' => "4"%char :: digits_of_uint d'
  | Decimal.D5 d' => "5"%char :: digits_of_uint d'
  | Decimal.D6 d' => "6"%char :: digits_of_uint d'
  | Decimal.D7 d' => "7"%char :: digits_of_uint d'
  | Decimal.D8 d' => "8"%char :: digits_of_uint d'
  | Decimal.D9 d' => "9"%char :: digits_of_uint d'
  end.

(** Number::toString on an integer of magnitude at most 2^53, where
    the digits are written in full and without exponent. *)
Definition integer_to_chars (z : Z) : list ascii :=
  if z <? 0 then "-"%char :: digits_of_uint (N.to_uint (Z.abs_N z))
  else digits_of_uint (N.to_uint (Z.abs_N z)).

(** A finite number prints as its decimal, the others as [null]. *)
Definition number_to_chars (n : number) : list ascii :=
  match n with
  | Fin z => integer_to_chars z
  | NaN | PosInf | NegInf => chars "null"
  end.

Fixpoint join (sep : list ascii) (parts : list (list ascii)) : list ascii :=
  match parts with
  | [] => []
  | [p] => p
  | p :: rest => p ++ sep ++ join sep rest
  end.

(** SerializeJSONProperty: [None] is the result [undefined].  In an array
    an element without a text is written [null]; in an object a property
    without a text is left out. *)
Fixpoint SerializeJSONProperty (v : JsVal) : option (list ascii) :=
  match v with
  | JUndefined => None
  | JNull => Some (chars "null")
  | JBool true => Some (chars "true")
  | JBool false => Some (chars "false")
  | JNum n => Some (number_to_chars n)
  | JStr s => Some (QuoteJSONString s)
  | JArr elems =>
      Some ("["%char ::
            join [","%char]
              (map (fun x => match SerializeJSONProperty x with
                             | Some t => t
                             | None => chars "null"
                             end) elems)
            ++ ["]"%char])
  | JObj props =>
      Some ("{"%char ::
            join [","%char]
              (flat_map (fun kv => match SerializeJSONProperty (snd kv) with
                                   | Some t => [QuoteJSONString (fst kv) ++ ":"%char :: t]
                                   | None => []
                                   end) props)
            ++ ["}"%char])
  end.

(** The text of a value: a string, or [undefined]. *)
Definition print_json (v : JsVal) : option string :=
  match SerializeJSONProperty v with
  | Some t => Some (string_of_list_ascii t)
  | None => None
  end.

(** The result of parsing a prefix of a text.  [PUnsupported] marks JSON
    text outside the fragment (a number with a fraction or an exponent
    or beyond 2^53, a [\u] escape of a code unit above 255); [PFuel] is
    the recursion bound, which [read_json] takes from the length of the
    text. *)
Inductive Parsed (A : Type) : Type :=
| POk (a : A) (rest : list ascii)
| PSyntaxError
| PUnsupported
| PFuel.
Arguments POk {A} a rest.
Arguments PSyntaxError {A}.
Arguments PUnsupported {A}.
Arguments PFuel {A}.

Definition pmap {A B : Type} (f : A -> B) (p : Parsed A) : Parsed B :=
  match p with
  | POk a rest => POk (f a) rest
  | PSyntaxError => PSyntaxError
  | PUnsupported => PUnsupported
  | PFuel => PFuel
  end.

(** JSON white space: space, tab, line feed, carriage return. *)
Definition is_ws (c : ascii) : bool :=
  let n := N_of_ascii c in
  ((n =? 32) || (n =? 9) || (n =? 10) || (n =? 13))%N.

Fixpoint skip_ws (s : list ascii) : list ascii :=
  match s with
  | c :: r => if is_ws c then skip_ws r else s
  | [] => []
  end.

Definition hex_val (c : ascii) : option N :=
  let n := N_of_ascii c in
  if ((48 <=? n) && (n <=? 57))%N then Some (n - 48)%N
  else if ((97 <=? n) && (n <=? 102))%N then Some (n - 87)%N
  else if ((65 <=? n) && (n <=? 70))%N then Some (n - 55)%N
  else None.

Definition hex4 (a b c d : ascii) : option N :=
  match hex_val a, hex_val b, hex_val c, hex_val d with
  | Some x, Some y, Some z, Some w => Some (((x * 16 + y) * 16 + z) * 16 + w)%N
  | _, _, _, _ => None
  end.

(** The code unit a one-letter escape stands for. *)
Definition unescape (e : ascii) : option ascii :=
  match e with
  | "b" => Some (ascii_of_N 8)
  | "t" => Some (ascii_of_N 9)
  | "n" => Some (ascii_of_N 10)
  | "f" => Some (ascii_of_N 12)
  | "r" => Some (ascii_of_N 13)
  | "/" => Some "/"
  | "\" => Some "\"
  | _ => if (N_of_ascii e =? 34)%N then Some e else None
  end%char.

(** The characters of a string literal, after its opening quote. *)
Fixpoint parse_string_chars (s : list ascii) : Parsed string :=
  match s with
  | [] => PSyntaxError
  | c :: r =>
      if (N_of_ascii c =? 34)%N then POk EmptyString r
      else if (N_of_ascii c =? 92)%N then
        match r with
        | [] => PSyntaxError
        | e :: r' =>
            match unescape e with
            | Some c' => pmap (String c') (parse_string_chars r')
            | None =>
                if (N_of_ascii e =? 117)%N then
                  match r' with
                  | h1 :: h2 :: h3 :: h4 :: r'' =>
                      match hex4 h1 h2 h3 h4 with
                      | Some n =>
                          if (n <? 256)%N
                          then pmap (String (ascii_of_N n)) (parse_string_chars r'')
                          else PUnsupported
                      | None => PSyntaxError
                      end
                  | _ => PSyntaxError
                  end
                else PSyntaxError
            end
        end
      else if (N_of_ascii c <? 32)%N then PSyntaxError
      else pmap (String c) (parse_string_chars r)
  end.

Definition digit_of (c : ascii) : option (Decimal.uint -> Decimal.uint) :=
  match c with
  | "0" => Some Decimal.D0 | "1" => Some Decimal.D1 | "2" => Some Decimal.D2
  | "3" => Some Decimal.D3 | "4" => Some Decimal.D4 | "5" => Some Decimal.D5
  | "6" => Some Decimal.D6 | "7" => Some Decimal.D7 | "8" => Some Decimal.D8
  | "9" => Some Decimal.D9 | _ => None
  end%char.

Fixpoint scan_digits (s : list ascii) : Decimal.uint * list ascii :=
  match s with
  | c :: r =>
      match digit_of c with
      | Some D => let (d, r') := scan_digits r in (D d, r')
      | None => (Decimal.Nil, s)
      end
  | [] => (Decimal.Nil, [])
  end.

(** The largest magnitude up to which every integer is a double. *)
Definition max_exact : N := 2 ^ 53.

(** After the integer part: a fraction or an exponent leaves the
    fragment, and so does an integer beyond 2^53, which the language
    would round. *)
Definition after_int (n : N) (r : list ascii) : Parsed N :=
  if (max_exact <? n)%N then PUnsupported
  else
    match r with
    | c :: _ =>
        match c with
        | "." | "e" | "E" => PUnsupported
        | _ => POk n r
        end%char
    | [] => POk n []
    end.

(** The integer part: [0], or a non-zero digit followed by digits. *)
Definition parse_int (s : list ascii) : Parsed N :=
  match scan_digits s with
  | (Decimal.Nil, _) => PSyntaxError
  | (Decimal.D0 Decimal.Nil, r) => after_int 0%N r
  | (Decimal.D0 _, _) => PSyntaxError
  | (d, r) => after_int (N.of_uint d) r
  end.

Definition parse_number (s : list ascii) : Parsed JsVal :=
  match s with
  | "-"%char :: r => pmap (fun n => JNum (Fin (- Z.of_N n))) (parse_int r)
  | _ => pmap (fun n => JNum (Fin (Z.of_N n))) (parse_int s)
  end.

Fixpoint strip_prefix (p s : list ascii) : option (list ascii) :=
  match p, s with
  | [], _ => Some s
  | a :: p', b :: s' => if Ascii.eqb a b then strip_prefix p' s' else None
  | _ :: _, [] => None
  end.

Definition parse_literal (lit : string) (v : JsVal) (s : list ascii) : Parsed JsVal :=
  match strip_prefix (chars lit) s with
  | Some r => POk v r
  | None => PSyntaxError
  end.

(** CreateDataProperty on a parsed object: a key met again keeps its
    place and takes the new value.  (The language enumerates integer-like
    keys first; [in_fragment] keeps such keys out.) *)
Fixpoint obj_set (k : string) (v : JsVal) (ps : list (string * JsVal))
  : list (string * JsVal) :=
  match ps with
  | [] => [(k, v)]
  | (k', v') :: rest =>
      if String.eqb k k' then (k', v) :: rest else (k', v') :: obj_set k v rest
  end.

Fixpoint parse_value (fuel : nat) (s : list ascii) {struct fuel} : Parsed JsVal :=
  match fuel with
  | O => PFuel
  | S fuel' =>
      match skip_ws s with
      | [] => PSyntaxError
      | c :: r =>
          match c with
          | "{" =>
              match skip_ws r with
              | "}" :: r' => POk (JObj []) r'
              | _ => parse_members fuel' r []
              end
          | "[" =>
              match skip_ws r with
              | "]" :: r' => POk (JArr []) r'
              | _ => parse_elements fuel' r []
              end
          | "n" => parse_literal "null" JNull (c :: r)
          | "t" => parse_literal "true" (JBool true) (c :: r)
          | "f" => parse_literal "false" (JBool false) (c :: r)
          | "-" | "0" | "1" | "2" | "3" | "4" | "5" | "6" | "7" | "8" | "9" =>
              parse_number (c :: r)
          | _ =>
              if (N_of_ascii c =? 34)%N then pmap JStr (parse_string_chars r)
              else PSyntaxError
          end%char
      end
  end
with parse_elements (fuel : nat) (s : list ascii) (acc : list JsVal)
       {struct fuel} : Parsed JsVal :=
  match fuel with
  | O => PFuel
  | S fuel' =>
      match parse_value fuel' s with
      | POk v r =>
          match skip_ws r with
          | "," :: r' => parse_elements fuel' r' (acc ++ [v])
          | "]" :: r' => POk (JArr (acc ++ [v])) r'
          | _ => PSyntaxError
          end%char
      | PSyntaxError => PSyntaxError
      | PUnsupported => PUnsupported
      | PFuel => PFuel
      end
  end
with parse_members (fuel : nat) (s : list ascii) (acc : list (string * JsVal))
       {struct fuel} : Parsed JsVal :=
  match fuel with
  | O => PFuel
  | S fuel' =>
      match skip_ws s with
      | q :: r =>
          if (N_of_ascii q =? 34)%N then
            match parse_string_chars r with
            | POk k r1 =>
                match skip_ws r1 with
                | ":"%char :: r2 =>
                    match parse_value fuel' r2 with
                    | POk v r3 =>
                        match skip_ws r3 with
                        | "," :: r4 => parse_members fuel' r4 (obj_set k v acc)
                        | "}" :: r4 => POk (JObj (obj_set k v acc)) r4
                        | _ => PSyntaxError
                        end%char
                    | PSyntaxError => PSyntaxError
                    | PUnsupported => PUnsupported
                    | PFuel => PFuel
                    end
                | _ => PSyntaxError
                end
            | PSyntaxError => PSyntaxError
            | PUnsupported => PUnsupported
            | PFuel => PFuel
            end
          else PSyntaxError
      | [] => PSyntaxError
      end
  end.

(** The value of a text: one value, with white space around it and
    nothing else. *)
Definition read_json (text : string) : Parsed JsVal :=
  match parse_value (S (String.length text)) (chars text) with
  | POk v r =>
      match skip_ws r with
      | [] => POk v []
      | _ :: _ => PSyntaxError
      end
  | PSyntaxError => PSyntaxError
  | PUnsupported => PUnsupported
  | PFuel => PFuel
  end.

(** *** The codec at the declared type

    The wrapper passes a [PersistedQuery] to [serialize] and casts the
    result of [deserialize] to [PersistedQuery] (line 80, unchecked). *)

(** The values of the fragment. *)
Definition plain_key (k : string) : bool :=
  match k with
  | String c _ => negb ((48 <=? N_of_ascii c) && (N_of_ascii c <=? 57))%N
  | EmptyString => true
  end.

Fixpoint nodup_keys (ks : list string) : bool :=
  match ks with
  | [] => true
  | k :: rest => negb (existsb (String.eqb k) rest) && nodup_keys rest
  end.

Fixpoint in_fragment (v : JsVal) : bool :=
  match v with
  | JNum (Fin z) => (Z.abs_N z <=? max_exact)%N
  | JArr elems => forallb in_fragment elems
  | JObj props =>
      forallb plain_key (map fst props)
      && nodup_keys (map fst props)
      && forallb (fun kv => in_fragment (snd kv)) props
  | _ => true
  end.

(** The object literal of lines 109-128, for any record. *)
Definition js_of_QueryState (st : QueryState) : JsVal :=
  JObj [("data", data st);
        ("dataUpdateCount", JNum (dataUpdateCount st));
        ("dataUpdatedAt", JNum (dataUpdatedAt st));
        ("status", JStr (status st));
        ("error", error st);
        ("errorUpdateCount", JNum (errorUpdateCount st));
        ("errorUpdatedAt", JNum (errorUpdatedAt st));
        ("fetchFailureCount", JNum (fetchFailureCount st));
        ("fetchFailureReason", fetchFailureReason st);
        ("fetchMeta", fetchMeta st);
        ("fetchStatus", JStr (fetchStatus st));
        ("isInvalidated", JBool (isInvalidated st))].

Definition js_of_PersistedQuery (pq : PersistedQuery) : JsVal :=
  JObj ([("state", js_of_QueryState (state pq));
         ("queryKey", queryKey pq);
         ("queryHash", JStr (queryHash pq))]
        ++ match timestamp pq with
           | Some n => [("timestamp", JNum n)]
           | None => []
           end
        ++ [("buster", JStr (buster pq))]).

(** The text of a record; an object always has one. *)
Definition record_text (pq : PersistedQuery) : string :=
  match print_json (js_of_PersistedQuery pq) with
  | Some text => text
  | None => EmptyString
  end.

(** Property read [v.k]. *)
Fixpoint assoc (k : string) (ps : list (string * JsVal)) : JsVal :=
  match ps with
  | [] => JUndefined
  | (k', v) :: rest => if String.eqb k k' then v else assoc k rest
  end.

Definition get_prop (k : string) (v : JsVal) : JsVal :=
  match v with
  | JObj ps => assoc k ps
  | _ => JUndefined
  end.

Definition as_number (v : JsVal) : option number :=
  match v with JNum n => Some n | _ => None end.

Definition as_string (v : JsVal) : option string :=
  match v with JStr s => Some s | _ => None end.

Definition as_bool (v : JsVal) : option bool :=
  match v with JBool b => Some b | _ => None end.

(** The record an object stands for, when its fields have the declared
    types. *)
Definition QueryState_of_js (v : JsVal) : option QueryState :=
  match v with
  | JObj _ =>
      duc ← as_number (get_prop "dataUpdateCount" v);
      dua ← as_number (get_prop "dataUpdatedAt" v);
      st ← as_string (get_prop "status" v);
      euc ← as_number (get_prop "errorUpdateCount" v);
      eua ← as_number (get_prop "errorUpdatedAt" v);
      ffc ← as_number (get_prop "fetchFailureCount" v);
      fs ← as_string (get_prop "fetchStatus" v);
      inv ← as_bool (get_prop "isInvalidated" v);
      Some (mkQueryState (get_prop "data" v) duc dua st (get_prop "error" v)
              euc eua ffc (get_prop "fetchFailureReason" v)
              (get_prop "fetchMeta" v) fs inv)
  | _ => None
  end.

Definition PersistedQuery_of_js (v : JsVal) : option PersistedQuery :=
  match v with
  | JObj _ =>
      b ← as_string (get_prop "buster" v);
      ts ← match get_prop "timestamp" v with
           | JNum n => Some (Some n)
           | JUndefined | JNull => Some None
           | _ => None
           end;
      h ← as_string (get_prop "queryHash" v);
      st ← QueryState_of_js (get_prop "state" v);
      Some (mkPersistedQuery b ts h (get_prop "queryKey" v) st)
  | _ => None
  end.

(** A value whose [timestamp] is absent or falsy.  Line 82 sends it to
    line 99 and nothing else of it is read: it stands for a record
    without timestamp (or with its falsy number), whatever its other
    fields are; those that do not have the declared type are left empty
    here. *)
Definition empty_state : QueryState :=
  mkQueryState JUndefined NaN NaN EmptyString JUndefined NaN NaN NaN
    JUndefined JUndefined EmptyString false.

Definition untimed_record (v : JsVal) : PersistedQuery :=
  {| buster := default EmptyString (as_string (get_prop "buster" v));
     timestamp := as_number (get_prop "timestamp" v);
     queryHash := default EmptyString (as_string (get_prop "queryHash" v));
     queryKey := get_prop "queryKey" v;
     state := default empty_state (QueryState_of_js (get_prop "state" v)) |}.

(** The mark of the codec where the fragment ends. *)
Definition NotModelled : JsVal := JStr "NotModelled".

(** In the place of [JSON.stringify] (line 69): the text of a record of
    the fragment. *)
Definition scenario_stringify (pq : PersistedQuery) : Outcome string :=
  if in_fragment (js_of_PersistedQuery pq) then Returns (record_text pq)
  else Throws NotModelled.

(** In the place of [JSON.parse] (line 70), read at the declared type.
    Text that is not JSON throws a SyntaxError.  The text [null] gives
    [null].  Any other value without a truthy timestamp is returned as a
    record without one.  A value with a truthy timestamp is returned as
    its record when its fields have the declared types; a value whose
    fields do not have them (a timestamp that is not a number, a buster
    that is not a string, ...) has no record in this embedding and is
    answered with the mark. *)
Definition scenario_parse (text : string) : Outcome (option PersistedQuery) :=
  match read_json text with
  | POk v _ =>
      if in_fragment v then
        match v with
        | JNull => Returns None
        | _ =>
            if truthy (get_prop "timestamp" v) then
              match PersistedQuery_of_js v with
              | Some pq => Returns (Some pq)
              | None => Throws NotModelled
              end
            else Returns (Some (untimed_record v))
        end
      else Throws NotModelled
  | PSyntaxError => Throws SyntaxError
  | PUnsupported | PFuel => Throws NotModelled
  end.

(** ** An environment in memory

    A storage that keeps its items in a map and can be told to reject
    or, for [setItem], to throw; a clock that advances by one
    millisecond at each reading, a [queryFn] with a fixed settlement,
    and a query cache. *)
Record World : Type := mkWorld {
  w_cache : gmap string QueryState;
  w_store : gmap string string;
  w_clock : Z;
  w_fetch : Settled JsVal;
  w_getItem_fault : option JsVal;
  w_removeItem_fault : option JsVal;
  w_setItem_fault : option JsVal;
  w_setItem_throw : option JsVal
}.

Definition with_store (w : World) (store : gmap string string) : World :=
  {| w_cache := w_cache w; w_store := store; w_clock := w_clock w;
     w_fetch := w_fetch w; w_getItem_fault := w_getItem_fault w;
     w_removeItem_fault := w_removeItem_fault w;
     w_setItem_fault := w_setItem_fault w;
     w_setItem_throw := w_setItem_throw w |}.

Definition with_cache (w : World) (cache : gmap string QueryState) : World :=
  {| w_cache := cache; w_store := w_store w; w_clock := w_clock w;
     w_fetch := w_fetch w; w_getItem_fault := w_getItem_fault w;
     w_removeItem_fault := w_removeItem_fault w;
     w_setItem_fault := w_setItem_fault w;
     w_setItem_throw := w_setItem_throw w |}.

Definition with_clock (w : World) (clock : Z) : World :=
  {| w_cache := w_cache w; w_store := w_store w; w_clock := clock;
     w_fetch := w_fetch w; w_getItem_fault := w_getItem_fault w;
     w_removeItem_fault := w_removeItem_fault w;
     w_setItem_fault := w_setItem_fault w;
     w_setItem_throw := w_setItem_throw w |}.

(** Modelled from the spec: the query cache of query-core, which is not
    in this file: "a way to check current cached state for an identity".
    The cache is a map from query hash to state. *)
Definition cache_getQueryState (hashKey : QueryKey -> string) (key : QueryKey)
    (w : World) : option QueryState * World :=
  (w_cache w !! hashKey key, w).

(** Modelled from the spec: the query cache of query-core, "a way to
    construct/register a cache entry from identity + hash + a restored
    state snapshot".  The state is registered under the hash unless the
    hash has an entry. *)
Definition cache_build (key : QueryKey) (hash : string) (st : QueryState)
    (w : World) : World :=
  match w_cache w !! hash with
  | Some _ => w
  | None => with_cache w (<[hash := st]> (w_cache w))
  end.

Definition mem_env (hashKey : QueryKey -> string) : Env World :=
  {| env_getQueryState := cache_getQueryState hashKey;
     env_getItem := fun key w =>
       match w_getItem_fault w with
       | Some reason => (Rejected reason, w)
       | None => (Fulfilled (w_store w !! key), w)
       end;
     env_removeItem := fun key w =>
       match w_removeItem_fault w with
       | Some reason => (Rejected reason, w)
       | None => (Fulfilled tt, with_store w (delete key (w_store w)))
       end;
     env_setItem := fun key value w =>
       match w_setItem_throw w, w_setItem_fault w with
       | Some exn, _ => (Throws exn, w)
       | None, Some reason => (Returns (Rejected reason), w)
       | None, None =>
           (Returns (Fulfilled tt), with_store w (<[key := value]> (w_store w)))
       end;
     env_now := fun w => (w_clock w, with_clock w (w_clock w + 1));
     env_build := cache_build;
     env_queryFn := fun _ w => (w_fetch w, w) |}.

(** Modelled from the spec: the hash of a query key, "deterministic",
    done by query-core's [hashKey], which is not in this file: here the
    JSON text of the key. *)
Definition hashKey_json (key : QueryKey) : string :=
  match print_json key with
  | Some text => text
  | None => EmptyString
  end.

(** The trace and the settlement of a run. *)
Definition observed {W : Type} (E : Env W) (p : Prog) (w : W)
  : list Event * Settled JsVal :=
  (run E p w).1.

(** ** Values that the reader gives back as they were printed *)

(** No [undefined], no [NaN] and no infinity anywhere in the value, the
    integers of magnitude at most 2^53, and the keys of every object
    distinct (as they are in an object of the language). *)
Fixpoint json_safe (v : JsVal) : bool :=
  match v with
  | JUndefined => false
  | JNull | JBool _ | JStr _ => true
  | JNum (Fin z) => (Z.abs_N z <=? max_exact)%N
  | JNum _ => false
  | JArr elems => forallb json_safe elems
  | JObj props =>
      nodup_keys (map fst props) && forallb (fun kv => json_safe (snd kv)) props
  end.

(** The recursion bound a value needs from [parse_value]. *)
Fixpoint size (v : JsVal) : nat :=
  match v with
  | JArr elems => S (list_sum (map (fun x => S (size x)) elems))
  | JObj props => S (list_sum (map (fun kv => S (size (snd kv))) props))
  | _ => 1%nat
  end.

Definition is_digit (c : ascii) : bool :=
  match digit_of c with
  | Some _ => true
  | None => false
  end.

(** What follows a value inside a text: nothing, or a separator. *)
Definition delimited (rest : list ascii) : Prop :=
  match rest with
  | [] => True
  | c :: _ => c = ","%char \/ c = "]"%char \/ c = "}"%char
  end.

(** A code unit a value can begin with. *)
Definition value_start (c : ascii) : bool :=
  negb (is_ws c) && negb (Ascii.eqb c "]") && negb (Ascii.eqb c "}").

(** The text of an element of an array and the texts of a property of an
    object, as [SerializeJSONProperty] writes them. *)
Definition elem_text (x : JsVal) : list ascii :=
  match SerializeJSONProperty x with
  | Some t => t
  | None => chars "null"
  end.

Definition member_texts (kv : string * JsVal) : list (list ascii) :=
  match SerializeJSONProperty (snd kv) with
  | Some t => [QuoteJSONString (fst kv) ++ ":"%char :: t]
  | None => []
  end.

(** The text of [v], followed by [rest], parses to [v] and leaves
    [rest]. *)
Definition parses_back (v : JsVal) : Prop :=
  json_safe v = true ->
  forall t, SerializeJSONProperty v = Some t ->
  forall fuel rest, (size v <= fuel)%nat -> delimited rest ->
  parse_value fuel (t ++ rest) = POk v rest.

Definition text_covers_size (v : JsVal) : Prop :=
  json_safe v = true ->
  forall t, SerializeJSONProperty v = Some t -> (size v <= length t)%nat.

(** ** The scenarios of the specification

    One query, keyed [["todos"]]; a storage that holds at most the record
    of that query; the clock at [t0] when the wrapper is invoked. *)

Definition todos_key : QueryKey := JArr [JStr "todos"].
Definition todos_context : QueryFunctionContext := mkContext todos_key.
Definition todos_hash : string := hashKey_json todos_key.
Definition t0 : Z := 1767225600000.

Definition cached : JsVal := JStr "cached".
Definition fresh : JsVal := JStr "fresh".

(** maxAge 1000 ms and buster "v1"; the same without expiry; no storage.
    [serialize] and [deserialize] are left out. *)
Definition options_v1 : StoragePersisterOptions unit unit :=
  mkOptions tt (Some tt) None None (Some "v1"%string) (Some (Fin 1000)).

Definition options_forever : StoragePersisterOptions unit unit :=
  mkOptions tt (Some tt) None None (Some "v1"%string) (Some PosInf).

Definition options_no_storage : StoragePersisterOptions unit unit :=
  mkOptions tt None None None None None.

(** A record of the query holding [cached], with the given timestamp and
    buster. *)
Definition persisted (ts : option number) (b : string) : PersistedQuery :=
  {| state := state (fresh_record cached todos_key todos_hash (t0 - 5000) 0 b);
     queryKey := todos_key;
     queryHash := todos_hash;
     timestamp := ts;
     buster := b |}.

Definition holding (text : string) : gmap string string :=
  {[ todos_hash := text ]}.

Definition world (store : gmap string string) (fetch : Settled JsVal)
    (setItem_fault : option JsVal) : World :=
  {| w_cache := ∅; w_store := store; w_clock := t0; w_fetch := fetch;
     w_getItem_fault := None; w_removeItem_fault := None;
     w_setItem_fault := setItem_fault; w_setItem_throw := None |}.

(** The invocation of the scenarios: the wrapper for the query, with the
    hash and the codec of the scenarios in the place of [hashKey],
    [JSON.stringify] and [JSON.parse]. *)
Definition todos_invocation (options : StoragePersisterOptions unit unit) : Prog :=
  createPersister hashKey_json scenario_stringify scenario_parse options
    todos_context.

Definition invoke (options : StoragePersisterOptions unit unit) (w : World)
  : list Event * Settled JsVal :=
  observed (mem_env hashKey_json) (todos_invocation options) w.

(** The calls of a fetch that fulfils with [fresh] and of the write that
    follows it, the clock read at [updatedAt] and [now]. *)
Definition fetch_and_write (updatedAt now : Z) (answer : Outcome (Settled unit))
  : list Event :=
  [EvQueryFn todos_context (Fulfilled fresh);
   EvDateNow updatedAt;
   EvDateNow now;
   EvSetItem todos_hash
     (record_text (fresh_record fresh todos_key todos_hash updatedAt now "v1"))
     answer].

(** The lookup of a record that is served. *)
Definition served_trace (pq : PersistedQuery) : list Event :=
  [EvGetQueryState todos_key None;
   EvGetItem todos_hash (Fulfilled (Some (record_text pq)));
   EvDateNow t0;
   EvBuild todos_key todos_hash (state pq)].

(** The lookup of a record that is removed after the expiry test, then
    the fetch and the write. *)
Definition tested_and_removed_trace (pq : PersistedQuery) : list Event :=
  [EvGetQueryState todos_key None;
   EvGetItem todos_hash (Fulfilled (Some (record_text pq)));
   EvDateNow t0;
   EvRemoveItem todos_hash (Fulfilled tt)]
  ++ fetch_and_write (t0 + 1) (t0 + 2) (Returns (Fulfilled tt)).

(** The same for a record that is removed without a reading of the
    clock. *)
Definition removed_trace (pq : PersistedQuery) : list Event :=
  [EvGetQueryState todos_key None;
   EvGetItem todos_hash (Fulfilled (Some (record_text pq)));
   EvRemoveItem todos_hash (Fulfilled tt)]
  ++ fetch_and_write t0 (t0 + 1) (Returns (Fulfilled tt)).

(** A lookup that finds nothing, then the fetch and the write. *)
Definition miss_trace (answer : Outcome (Settled unit)) : list Event :=
  [EvGetQueryState todos_key None;
   EvGetItem todos_hash (Fulfilled None)]
  ++ fetch_and_write t0 (t0 + 1) answer.

Definition QuotaExceededError : JsVal := JStr "QuotaExceededError".
Definition NetworkError : JsVal := JStr "NetworkError".

(** ** More scenarios

    A cache that holds data, a clock set later, a wrapper with another
    buster, a synchronous storage that is full, a [serialize] that
    throws. *)

Definition cached_state (d : JsVal) : QueryState :=
  state (fresh_record d todos_key todos_hash (t0 - 5000) 0 "v1").

Definition world_at (cache : gmap string QueryState) (store : gmap string string)
    (clock : Z) : World :=
  {| w_cache := cache; w_store := store; w_clock := clock;
     w_fetch := Fulfilled fresh;
     w_getItem_fault := None; w_removeItem_fault := None;
     w_setItem_fault := None; w_setItem_throw := None |}.

(** An empty storage whose [setItem] throws, as the [setItem] of a
    synchronous [Storage] does when the quota is exceeded. *)
Definition full_storage : World :=
  {| w_cache := ∅; w_store := ∅; w_clock := t0; w_fetch := Fulfilled fresh;
     w_getItem_fault := None; w_removeItem_fault := None;
     w_setItem_fault := None; w_setItem_throw := Some QuotaExceededError |}.

(** A [serialize] that throws on every record, as [JSON.stringify] does
    on a record that holds a BigInt. *)
Definition options_unserializable : StoragePersisterOptions unit unit :=
  mkOptions tt (Some tt) (Some (fun _ => Throws TypeError)) None
    (Some "v1"%string) (Some (Fin 1000)).

Definition options_v2 : StoragePersisterOptions unit unit :=
  mkOptions tt (Some tt) None None (Some "v2"%string) (Some (Fin 1000)).

Definition written_record : PersistedQuery :=
  fresh_record fresh todos_key todos_hash t0 (t0 + 1) "v1".

(** ** Tactics for executions *)

Ltac exec_inv H := inversion H; subst; clear H.

(** One step of an execution: the node at the head of the program gives
    the head of the trace; a test in the program is split. *)
Ltac exec_step :=
  match goal with
  | H : exec (Return _) _ _ |- _ => exec_inv H
  | H : exec (GetQueryState _ _) _ _ |- _ => exec_inv H
  | H : exec (GetItem _ _) _ _ |- _ => exec_inv H
  | H : exec (RemoveItem _ _) _ _ |- _ => exec_inv H
  | H : exec (SetItem _ _ _) _ _ |- _ => exec_inv H
  | H : exec (DateNow _) _ _ |- _ => exec_inv H
  | H : exec (Build _ _ _ _) _ _ |- _ => exec_inv H
  | H : exec (QueryFn _ _) _ _ |- _ => exec_inv H
  | H : exec (await _ _) _ _ |- _ => unfold await in H
  | H : exec (fetch_and_persist _ _ _ _ _) _ _ |- _ => unfold fetch_and_persist in H
  | H : exec (match ?x with _ => _ end) _ _ |- _ => destruct x eqn:?
  | H : exec _ _ _ |- _ => progress (cbv beta in H)
  end.

(** A fact [In e t] about a trace that is known event by event. *)
Ltac trace_in H :=
  simpl in H;
  repeat match type of H with
         | _ \/ _ => destruct H as [H|H]; [try discriminate H|]
         | False => destruct H
         end.

Ltac tidy :=
  repeat (simplify_eq/= ||
          match goal with
          | H : stored_truthy _ = _ |- _ => unfold stored_truthy in H
          | H : timestamp_truthy _ = _ |- _ => unfold timestamp_truthy in H
          | H1 : ?x = _, H2 : ?x = _ |- _ => rewrite H1 in H2
          | H : (if ?b then _ else _) = _ |- _ => destruct b eqn:?
          | H : match ?x with _ => _ end = _ |- _ => destruct x eqn:?
          | H : _ || _ = false |- _ => apply orb_false_elim in H; destruct H
          | H : _ || _ = true |- _ => apply orb_prop in H; destruct H
          | H : _ && _ = true |- _ => apply andb_prop in H; destruct H
          end).

(** A closed equation, by evaluation. *)
Ltac computed := vm_compute; reflexivity.

(** Each event of a trace that is known event by event. *)
Ltac each_event :=
  let ev := fresh "ev" in
  let Hev := fresh "Hev" in
  intros ev Hev; trace_in Hev; subst.

(** A trace that is known event by event, as a prefix followed by its
    last calls. *)
Ltac trace_tail :=
  first [ exact (eq_refl : _ = [] ++ _)
        | exact (eq_refl : _ = [_] ++ _)
        | exact (eq_refl : _ = [_; _] ++ _)
        | exact (eq_refl : _ = [_; _; _] ++ _)
        | exact (eq_refl : _ = [_; _; _; _] ++ _)
        | exact (eq_refl : _ = [_; _; _; _; _] ++ _)
        | exact (eq_refl : _ = [_; _; _; _; _; _] ++ _) ].

(** The timestamp test of a record whose timestamp is known. *)
Ltac ts_goal :=
  unfold timestamp_truthy;
  repeat match goal with
         | H : timestamp _ = _ |- _ => rewrite H
         | H : num_truthy _ = _ |- _ => rewrite H
         end.

(** * Properties *)

(** ** The codec of the scenarios

    What the printer writes for a value of [json_safe], the reader gives
    back.  Induction on a value, with the elements of an array and the
    properties of an object. *)
Lemma JsVal_ind' (P : JsVal -> Prop) :
  P JUndefined -> P JNull -> (forall b, P (JBool b)) -> (forall n, P (JNum n)) ->
  (forall s, P (JStr s)) ->
  (forall elems, Forall P elems -> P (JArr elems)) ->
  (forall props, Forall (fun kv => P (snd kv)) props -> P (JObj props)) ->
  forall v, P v.
Proof.
  intros Hu Hn Hb Hnum Hs Ha Ho.
  fix IH 1. intros [| |b|n|s|elems|props].
  - exact Hu.
  - exact Hn.
  - apply Hb.
  - apply Hnum.
  - apply Hs.
  - apply Ha. induction elems as [|x l IHl]; constructor; [apply IH | exact IHl].
  - apply Ho. induction props as [|[k x] l IHl]; constructor; [apply IH | exact IHl].
Qed.

Lemma parse_escape_char c tail :
  parse_string_chars (escape_char c ++ tail)
  = pmap (String c) (parse_string_chars tail).
Proof.
  destruct c as [[] [] [] [] [] [] [] []]; reflexivity.
Qed.

Lemma parse_escape_string s rest :
  parse_string_chars (escape_string s ++ dquote :: rest) = POk s rest.
Proof.
  induction s as [|c s IH]; simpl.
  - reflexivity.
  - rewrite <- app_assoc, parse_escape_char, IH. reflexivity.
Qed.

Lemma scan_digits_app d rest :
  delimited rest -> scan_digits (digits_of_uint d ++ rest) = (d, rest).
Proof.
  intros Hrest. induction d; simpl; try (rewrite IHd; reflexivity).
  destruct rest as [|c rest]; [reflexivity|].
  destruct Hrest as [-> | [-> | ->]]; reflexivity.
Qed.

Lemma after_int_delimited n rest :
  (n <=? max_exact)%N = true -> delimited rest -> after_int n rest = POk n rest.
Proof.
  intros Hn. unfold after_int.
  replace (max_exact <? n)%N with false by (symmetry; apply N.ltb_ge, N.leb_le, Hn).
  destruct rest as [|c rest]; [reflexivity|].
  intros [-> | [-> | ->]]; reflexivity.
Qed.

Lemma nzhead_not_D0 d : match Decimal.nzhead d with Decimal.D0 _ => False | _ => True end.
Proof. induction d; simpl; auto. Qed.

Lemma to_uint_canonical n :
  match N.to_uint n with
  | Decimal.Nil => False
  | Decimal.D0 Decimal.Nil => True
  | Decimal.D0 _ => False
  | _ => True
  end.
Proof.
  pose proof (DecimalN.Unsigned.to_of (N.to_uint n)) as H.
  rewrite DecimalN.Unsigned.of_to in H. rewrite H.
  unfold Decimal.unorm. pose proof (nzhead_not_D0 (N.to_uint n)) as X.
  destruct (Decimal.nzhead (N.to_uint n)); simpl in *; try contradiction; auto.
Qed.


Lemma parse_int_to_uint n rest :
  (n <=? max_exact)%N = true -> delimited rest ->
  parse_int (digits_of_uint (N.to_uint n) ++ rest) = POk n rest.
Proof.
  intros Hexact Hrest. unfold parse_int. rewrite scan_digits_app by assumption.
  pose proof (to_uint_canonical n) as Hc.
  pose proof (DecimalN.Unsigned.of_to n) as Hn.
  destruct (N.to_uint n) as [|d|d|d|d|d|d|d|d|d|d] eqn:E;
    try (rewrite Hn; now apply after_int_delimited).
  - destruct Hc.
  - destruct d; try destruct Hc. simpl in Hn. subst n.
    now apply after_int_delimited.
Qed.

Lemma digits_head d :
  match digits_of_uint d with
  | [] => d = Decimal.Nil
  | c :: _ => is_digit c = true
  end.
Proof. destruct d; reflexivity. Qed.

Lemma parse_number_digit c tl :
  is_digit c = true ->
  parse_number (c :: tl) = pmap (fun n => JNum (Fin (Z.of_N n))) (parse_int (c :: tl)).
Proof.
  destruct c as [[] [] [] [] [] [] [] []]; try discriminate; reflexivity.
Qed.

Lemma parse_number_integer z rest :
  (Z.abs_N z <=? max_exact)%N = true -> delimited rest ->
  parse_number (integer_to_chars z ++ rest) = POk (JNum (Fin z)) rest.
Proof.
  intros Hexact Hrest. unfold integer_to_chars.
  destruct (z <? 0) eqn:Hz.
  - simpl. rewrite parse_int_to_uint by assumption. simpl.
    rewrite N2Z.inj_abs_N. do 3 f_equal. lia.
  - pose proof (digits_head (N.to_uint (Z.abs_N z))) as Hd.
    pose proof (to_uint_canonical (Z.abs_N z)) as Hc.
    pose proof (parse_int_to_uint (Z.abs_N z) rest Hexact Hrest) as Hp.
    destruct (digits_of_uint (N.to_uint (Z.abs_N z))) as [|c tl].
    + rewrite Hd in Hc. destruct Hc.
    + change ((c :: tl) ++ rest) with (c :: (tl ++ rest)) in *.
      rewrite parse_number_digit, Hp by assumption. simpl.
      rewrite N2Z.inj_abs_N. do 3 f_equal. lia.
Qed.

Lemma parse_value_number fuel c tl :
  is_digit c = true \/ c = "-"%char ->
  parse_value (S fuel) (c :: tl) = parse_number (c :: tl).
Proof.
  intros [H | ->]; [|reflexivity].
  destruct c as [[] [] [] [] [] [] [] []]; try discriminate; reflexivity.
Qed.

Lemma parse_value_integer fuel z rest :
  (Z.abs_N z <=? max_exact)%N = true -> delimited rest ->
  parse_value (S fuel) (integer_to_chars z ++ rest) = POk (JNum (Fin z)) rest.
Proof.
  intros Hexact Hrest. rewrite <- (parse_number_integer z rest Hexact Hrest).
  unfold integer_to_chars. destruct (z <? 0).
  - reflexivity.
  - pose proof (digits_head (N.to_uint (Z.abs_N z))) as Hd.
    pose proof (to_uint_canonical (Z.abs_N z)) as Hc.
    destruct (digits_of_uint (N.to_uint (Z.abs_N z))) as [|c tl].
    + rewrite Hd in Hc. destruct Hc.
    + simpl app. apply parse_value_number. now left.
Qed.

Lemma Serialize_JArr elems :
  SerializeJSONProperty (JArr elems)
  = Some ("["%char :: join [","%char] (map elem_text elems) ++ ["]"%char]).
Proof. reflexivity. Qed.

Lemma Serialize_JObj props :
  SerializeJSONProperty (JObj props)
  = Some ("{"%char :: join [","%char] (flat_map member_texts props) ++ ["}"%char]).
Proof. reflexivity. Qed.

Lemma is_digit_value_start c : is_digit c = true -> value_start c = true.
Proof. destruct c as [[] [] [] [] [] [] [] []]; try discriminate; reflexivity. Qed.

Lemma safe_has_text v :
  json_safe v = true -> exists t, SerializeJSONProperty v = Some t.
Proof.
  destruct v as [| |[]|n|s|elems|props]; simpl; try discriminate; eauto.
Qed.

Lemma text_head v t :
  SerializeJSONProperty v = Some t ->
  exists c tl, t = c :: tl /\ value_start c = true.
Proof.
  destruct v as [| |[]|n|s|elems|props]; simpl; intros H; simplify_eq;
    try (eexists _, _; split; reflexivity).
  destruct n as [z| | |]; try (eexists _, _; split; reflexivity).
  unfold number_to_chars, integer_to_chars.
  destruct (z <? 0); [eexists _, _; split; reflexivity|].
  pose proof (digits_head (N.to_uint (Z.abs_N z))) as Hd.
  pose proof (to_uint_canonical (Z.abs_N z)) as Hc.
  destruct (digits_of_uint (N.to_uint (Z.abs_N z))) as [|c tl].
  - rewrite Hd in Hc. destruct Hc.
  - eexists _, _; split; [reflexivity|]. now apply is_digit_value_start.
Qed.

Lemma parse_value_open_array fuel c tl :
  value_start c = true ->
  parse_value (S fuel) ("["%char :: c :: tl) = parse_elements fuel (c :: tl) [].
Proof.
  destruct c as [[] [] [] [] [] [] [] []]; try discriminate; reflexivity.
Qed.

Lemma skip_ws_delimited rest :
  delimited rest -> skip_ws rest = rest.
Proof.
  destruct rest as [|c rest]; [reflexivity|].
  intros [-> | [-> | ->]]; reflexivity.
Qed.

Lemma parse_members_step fuel k tail acc :
  parse_members (S fuel) (QuoteJSONString k ++ ":"%char :: tail) acc
  = match parse_value fuel tail with
    | POk v r3 =>
        match skip_ws r3 with
        | ","%char :: r4 => parse_members fuel r4 (obj_set k v acc)
        | "}"%char :: r4 => POk (JObj (obj_set k v acc)) r4
        | _ => PSyntaxError
        end
    | PSyntaxError => PSyntaxError
    | PUnsupported => PUnsupported
    | PFuel => PFuel
    end.
Proof.
  unfold QuoteJSONString.
  change (parse_members (S fuel) ((dquote :: escape_string k ++ [dquote]) ++ ":"%char :: tail) acc)
    with (match parse_string_chars ((escape_string k ++ [dquote]) ++ ":"%char :: tail) with
          | POk k r1 =>
              match skip_ws r1 with
              | ":"%char :: r2 =>
                  match parse_value fuel r2 with
                  | POk v r3 =>
                      match skip_ws r3 with
                      | ","%char :: r4 => parse_members fuel r4 (obj_set k v acc)
                      | "}"%char :: r4 => POk (JObj (obj_set k v acc)) r4
                      | _ => PSyntaxError
                      end
                  | PSyntaxError => PSyntaxError
                  | PUnsupported => PUnsupported
                  | PFuel => PFuel
                  end
              | _ => PSyntaxError
              end
          | PSyntaxError => PSyntaxError
          | PUnsupported => PUnsupported
          | PFuel => PFuel
          end).
  rewrite <- app_assoc. change ([dquote] ++ ":"%char :: tail) with (dquote :: ":"%char :: tail).
  rewrite parse_escape_string. reflexivity.
Qed.

Lemma obj_set_fresh k v acc :
  existsb (String.eqb k) (map fst acc) = false ->
  obj_set k v acc = acc ++ [(k, v)].
Proof.
  induction acc as [|[k' v'] acc IH]; simpl; [reflexivity|].
  intros H. apply orb_false_elim in H as [H1 H2].
  rewrite H1, IH by assumption. reflexivity.
Qed.

Lemma nodup_keys_middle ka k kp :
  nodup_keys (ka ++ k :: kp) = true -> existsb (String.eqb k) ka = false.
Proof.
  induction ka as [|a ka IH]; simpl; [reflexivity|].
  intros H. apply andb_prop in H as [H1 H2].
  rewrite (IH H2), orb_false_r.
  apply negb_true_iff in H1.
  rewrite existsb_app in H1. apply orb_false_elim in H1 as [_ H1].
  simpl in H1. apply orb_false_elim in H1 as [H1 _].
  rewrite String.eqb_sym. exact H1.
Qed.

Lemma parse_elements_comma fuel s acc x tail :
  parse_value fuel s = POk x (","%char :: tail) ->
  parse_elements (S fuel) s acc = parse_elements fuel tail (acc ++ [x]).
Proof. intros H. simpl. rewrite H. reflexivity. Qed.

Lemma parse_elements_close fuel s acc x tail :
  parse_value fuel s = POk x ("]"%char :: tail) ->
  parse_elements (S fuel) s acc = POk (JArr (acc ++ [x])) tail.
Proof. intros H. simpl. rewrite H. reflexivity. Qed.

Lemma parse_members_comma fuel k s acc x tail :
  parse_value fuel s = POk x (","%char :: tail) ->
  parse_members (S fuel) (QuoteJSONString k ++ ":"%char :: s) acc
  = parse_members fuel tail (obj_set k x acc).
Proof. intros H. rewrite parse_members_step, H. reflexivity. Qed.

Lemma parse_members_close fuel k s acc x tail :
  parse_value fuel s = POk x ("}"%char :: tail) ->
  parse_members (S fuel) (QuoteJSONString k ++ ":"%char :: s) acc
  = POk (JObj (obj_set k x acc)) tail.
Proof. intros H. rewrite parse_members_step, H. reflexivity. Qed.

Lemma join_cons sep p q parts :
  join sep (p :: q :: parts) = p ++ sep ++ join sep (q :: parts).
Proof. reflexivity. Qed.

Lemma parse_elements_back elems :
  elems <> [] ->
  Forall parses_back elems ->
  forallb json_safe elems = true ->
  forall fuel acc rest,
    (list_sum (map (fun x => S (size x)) elems) <= fuel)%nat ->
    parse_elements fuel (join [","%char] (map elem_text elems) ++ "]"%char :: rest) acc
    = POk (JArr (acc ++ elems)) rest.
Proof.
  induction elems as [|x l IH]; [congruence|].
  intros _ Hall Hsafe fuel acc rest Hfuel.
  inversion Hall as [|? ? Hx Hl]; subst.
  simpl in Hsafe. apply andb_prop in Hsafe as [Hsx Hsl].
  destruct (safe_has_text x Hsx) as [tx Htx].
  simpl in Hfuel. destruct fuel as [|fuel]; [lia|].
  assert (Helem : elem_text x = tx) by (unfold elem_text; now rewrite Htx).
  destruct l as [|y l'].
  - simpl join. simpl map. simpl join. rewrite Helem.
    apply parse_elements_close.
    apply (Hx Hsx tx Htx); [lia|simpl; auto].
  - rewrite !map_cons, join_cons, <- !map_cons, Helem, <- !app_assoc.
    rewrite (parse_elements_comma fuel _ acc x
               (join [","%char] (map elem_text (y :: l')) ++ "]"%char :: rest)).
    + rewrite IH; [|congruence|assumption|assumption|simpl in *; lia].
      rewrite <- app_assoc. reflexivity.
    + apply (Hx Hsx tx Htx); [lia|simpl; auto].
Qed.

Lemma parse_members_back props :
  props <> [] ->
  Forall (fun kv => parses_back (snd kv)) props ->
  forallb (fun kv => json_safe (snd kv)) props = true ->
  forall fuel acc rest,
    nodup_keys (map fst (acc ++ props)) = true ->
    (list_sum (map (fun kv => S (size (snd kv))) props) <= fuel)%nat ->
    parse_members fuel
      (join [","%char] (flat_map member_texts props) ++ "}"%char :: rest) acc
    = POk (JObj (acc ++ props)) rest.
Proof.
  induction props as [|[k x] l IH]; [congruence|].
  intros _ Hall Hsafe fuel acc rest Hdup Hfuel.
  inversion Hall as [|? ? Hx Hl]; subst.
  simpl in Hsafe. apply andb_prop in Hsafe as [Hsx Hsl].
  simpl in Hx.
  destruct (safe_has_text x Hsx) as [tx Htx].
  simpl in Hfuel. destruct fuel as [|fuel]; [lia|].
  assert (Hmem : member_texts (k, x) = [QuoteJSONString k ++ ":"%char :: tx])
    by (unfold member_texts; simpl; now rewrite Htx).
  assert (Hfresh : obj_set k x acc = acc ++ [(k, x)]).
  { apply obj_set_fresh. rewrite map_app in Hdup. simpl in Hdup.
    now apply nodup_keys_middle in Hdup. }
  destruct l as [|[k' y] l'].
  - change (flat_map member_texts [(k, x)]) with (member_texts (k, x) ++ []).
    rewrite Hmem. change (join [","%char] ([QuoteJSONString k ++ ":"%char :: tx] ++ []))
      with (QuoteJSONString k ++ ":"%char :: tx).
    rewrite <- app_assoc, <- app_comm_cons.
    rewrite (parse_members_close fuel k _ acc x rest).
    + now rewrite Hfresh.
    + apply (Hx Hsx tx Htx); [lia|simpl; auto].
  - destruct (safe_has_text y) as [ty Hty].
    { simpl in Hsl. now apply andb_prop in Hsl as [? _]. }
    change (flat_map member_texts ((k, x) :: (k', y) :: l'))
      with (member_texts (k, x) ++ flat_map member_texts ((k', y) :: l')).
    rewrite Hmem.
    assert (Hnext : exists m ms, flat_map member_texts ((k', y) :: l') = m :: ms).
    { simpl. unfold member_texts at 1. simpl. rewrite Hty. simpl. eauto. }
    destruct Hnext as (m & ms & Hnext).
    change ([QuoteJSONString k ++ ":"%char :: tx] ++ flat_map member_texts ((k', y) :: l'))
      with ((QuoteJSONString k ++ ":"%char :: tx) :: flat_map member_texts ((k', y) :: l')).
    remember (flat_map member_texts ((k', y) :: l')) as next eqn:Enext.
    rewrite Hnext at 1. rewrite join_cons, <- Hnext, <- !app_assoc.
    rewrite <- app_comm_cons.
    change ([","%char] ++ join [","%char] next ++ "}"%char :: rest)
      with (","%char :: (join [","%char] next ++ "}"%char :: rest)).
    rewrite (parse_members_comma fuel k _ acc x
               (join [","%char] next ++ "}"%char :: rest)).
    + subst next. rewrite Hfresh.
      rewrite IH; [|congruence|assumption|assumption| |simpl in *; lia].
      * rewrite <- app_assoc. reflexivity.
      * rewrite <- app_assoc. exact Hdup.
    + apply (Hx Hsx tx Htx); [lia|simpl; auto].
Qed.

Lemma parse_value_open_object fuel tl :
  parse_value (S fuel) ("{"%char :: dquote :: tl) = parse_members fuel (dquote :: tl) [].
Proof. reflexivity. Qed.

Lemma parse_value_string fuel tl :
  parse_value (S fuel) (dquote :: tl) = pmap JStr (parse_string_chars tl).
Proof. reflexivity. Qed.

Lemma parse_value_back v : parses_back v.
Proof.
  induction v as [| |b|n|s|elems IH|props IH] using JsVal_ind';
    intros Hsafe t Ht fuel rest Hfuel Hrest;
    try discriminate Hsafe.
  - simpl in Ht, Hfuel. simplify_eq. destruct fuel; [lia|]. reflexivity.
  - simpl in Hfuel. destruct fuel; [lia|].
    destruct b; simpl in Ht; simplify_eq; reflexivity.
  - destruct n as [z| | |]; try discriminate Hsafe.
    simpl in Ht, Hfuel. simplify_eq. destruct fuel; [lia|].
    now apply parse_value_integer.
  - simpl in Ht, Hfuel. simplify_eq. destruct fuel; [lia|].
    unfold QuoteJSONString. rewrite <- app_comm_cons, parse_value_string.
    rewrite <- app_assoc. change ([dquote] ++ rest) with (dquote :: rest).
    rewrite parse_escape_string. reflexivity.
  - rewrite Serialize_JArr in Ht. simplify_eq.
    simpl in Hsafe. cbn [size] in Hfuel. destruct fuel; [lia|].
    destruct elems as [|x l]; [reflexivity|].
    rewrite <- app_comm_cons, <- app_assoc.
    change (["]"%char] ++ rest) with ("]"%char :: rest).
    assert (Hhead : exists c tl,
               join [","%char] (map elem_text (x :: l)) ++ "]"%char :: rest = c :: tl
               /\ value_start c = true).
    { simpl in Hsafe. apply andb_prop in Hsafe as [Hsx _].
      destruct (safe_has_text x Hsx) as [tx Htx].
      destruct (text_head x tx Htx) as (c & tl & -> & Hc).
      assert (elem_text x = c :: tl) as He by (unfold elem_text; now rewrite Htx).
      destruct l; simpl; rewrite He; simpl; eauto. }
    destruct Hhead as (c & tl & Hhead & Hc).
    rewrite Hhead, parse_value_open_array, <- Hhead by assumption.
    rewrite parse_elements_back; [reflexivity|congruence|assumption|assumption|lia].
  - rewrite Serialize_JObj in Ht. simplify_eq.
    simpl in Hsafe. apply andb_prop in Hsafe as [Hdup Hsafe].
    cbn [size] in Hfuel. destruct fuel; [lia|].
    destruct props as [|[k x] l]; [reflexivity|].
    rewrite <- app_comm_cons, <- app_assoc.
    change (["}"%char] ++ rest) with ("}"%char :: rest).
    assert (Hhead : exists tl,
               join [","%char] (flat_map member_texts ((k, x) :: l)) ++ "}"%char :: rest
               = dquote :: tl).
    { simpl in Hsafe. apply andb_prop in Hsafe as [Hsx _].
      destruct (safe_has_text x Hsx) as [tx Htx].
      change (flat_map member_texts ((k, x) :: l))
        with (member_texts (k, x) ++ flat_map member_texts l).
      unfold member_texts at 1. simpl snd. rewrite Htx. simpl fst.
      unfold QuoteJSONString.
      destruct (flat_map member_texts l); simpl; eauto. }
    destruct Hhead as (tl & Hhead).
    rewrite Hhead, parse_value_open_object, <- Hhead.
    rewrite parse_members_back; [reflexivity|congruence|assumption|assumption|assumption|lia].
Qed.

Lemma join_length c parts :
  parts <> [] ->
  S (length (join [c] parts)) = list_sum (map (fun p => S (length p)) parts).
Proof.
  induction parts as [|p l IH]; [congruence|]. intros _.
  destruct l as [|q l'].
  - simpl. lia.
  - rewrite join_cons, !length_app, map_cons.
    change (list_sum (S (length p) :: map (fun p0 => S (length p0)) (q :: l')))
      with (S (length p) + list_sum (map (fun p0 => S (length p0)) (q :: l')))%nat.
    rewrite <- IH by congruence. simpl. lia.
Qed.

Lemma size_le_length v : text_covers_size v.
Proof.
  induction v as [| |b|n|s|elems IH|props IH] using JsVal_ind';
    intros Hsafe t Ht; try discriminate Hsafe.
  - simpl in Ht. simplify_eq. simpl. lia.
  - destruct b; simpl in Ht; simplify_eq; simpl; lia.
  - destruct n as [z| | |]; try discriminate Hsafe.
    simpl in Ht. simplify_eq. simpl.
    destruct (text_head (JNum (Fin z)) _ eq_refl) as (c & tl & E & _).
    simpl in E. rewrite E. simpl. lia.
  - simpl in Ht. simplify_eq. simpl. lia.
  - rewrite Serialize_JArr in Ht. simplify_eq.
    simpl in Hsafe. cbn [size].
    destruct elems as [|x l]; [simpl; lia|].
    cbn [length]. rewrite length_app. cbn [length].
    pose proof (join_length ","%char (map elem_text (x :: l))) as Hj.
    cut (list_sum (map (fun x => S (size x)) (x :: l))
         <= list_sum (map (fun p => S (length p)) (map elem_text (x :: l))))%nat.
    { intros Hcut. rewrite <- Hj in Hcut by (simpl; congruence). lia. }
    clear Hj. revert IH Hsafe. generalize (x :: l). clear x l.
    induction l as [|x l IHl]; intros Hall Hsafe; [simpl; lia|].
    inversion Hall as [|? ? Hx Hl]; subst.
    simpl in Hsafe. apply andb_prop in Hsafe as [Hsx Hsl].
    destruct (safe_has_text x Hsx) as [tx Htx].
    specialize (Hx Hsx tx Htx). specialize (IHl Hl Hsl).
    simpl. unfold elem_text at 1. rewrite Htx. lia.
  - rewrite Serialize_JObj in Ht. simplify_eq.
    simpl in Hsafe. apply andb_prop in Hsafe as [_ Hsafe]. cbn [size].
    destruct props as [|[k x] l]; [simpl; lia|].
    cbn [length]. rewrite length_app. cbn [length].
    pose proof (join_length ","%char (flat_map member_texts ((k, x) :: l))) as Hj.
    cut (list_sum (map (fun kv => S (size (snd kv))) ((k, x) :: l))
         <= list_sum (map (fun p => S (length p))
                        (flat_map member_texts ((k, x) :: l))))%nat.
    { intros Hcut. rewrite <- Hj in Hcut; [lia|].
      simpl in Hsafe. apply andb_prop in Hsafe as [Hsx _].
      destruct (safe_has_text x Hsx) as [tx Htx].
      simpl. unfold member_texts at 1. simpl. rewrite Htx. simpl. congruence. }
    clear Hj. revert IH Hsafe. generalize ((k, x) :: l). clear k x l.
    induction l as [|[k x] l IHl]; intros Hall Hsafe; [simpl; lia|].
    inversion Hall as [|? ? Hx Hl]; subst.
    simpl in Hsafe. apply andb_prop in Hsafe as [Hsx Hsl].
    destruct (safe_has_text x Hsx) as [tx Htx].
    simpl in Hx. specialize (Hx Hsx tx Htx). specialize (IHl Hl Hsl).
    simpl. unfold member_texts at 1. simpl. rewrite Htx. simpl.
    rewrite length_app. simpl. lia.
Qed.

Lemma length_string_of_list_ascii t :
  String.length (string_of_list_ascii t) = length t.
Proof. induction t as [|c t IH]; simpl; congruence. Qed.

Lemma read_json_of_print_json v text :
  json_safe v = true ->
  print_json v = Some text ->
  read_json text = POk v [].
Proof.
  intros Hsafe Htext. unfold print_json in Htext.
  destruct (SerializeJSONProperty v) as [t|] eqn:Ht; [|discriminate].
  simplify_eq. unfold read_json, chars.
  rewrite list_ascii_of_string_of_list_ascii, length_string_of_list_ascii.
  rewrite <- (app_nil_r t) at 2.
  rewrite (parse_value_back v Hsafe t Ht); [reflexivity| |exact I].
  pose proof (size_le_length v Hsafe t Ht). lia.
Qed.

Lemma record_text_printed pq :
  print_json (js_of_PersistedQuery pq) = Some (record_text pq).
Proof. reflexivity. Qed.

Lemma fresh_record_safe fetched key hash updatedAt now configured :
  json_safe fetched = true -> json_safe key = true ->
  (Z.abs_N updatedAt <=? max_exact)%N = true ->
  (Z.abs_N now <=? max_exact)%N = true ->
  json_safe (js_of_PersistedQuery
               (fresh_record fetched key hash updatedAt now configured)) = true.
Proof. intros Hf Hk Hu Hn. cbn. rewrite Hf, Hk, Hu, Hn. reflexivity. Qed.

(** The two clock readings of a record of the fragment are exact. *)
Lemma fresh_record_in_fragment fetched key hash updatedAt now configured :
  in_fragment (js_of_PersistedQuery
                 (fresh_record fetched key hash updatedAt now configured)) = true ->
  (Z.abs_N updatedAt <=? max_exact)%N = true
  /\ (Z.abs_N now <=? max_exact)%N = true.
Proof.
  cbn. intros H.
  destruct (Z.abs_N updatedAt <=? max_exact)%N, (Z.abs_N now <=? max_exact)%N;
    try (split; reflexivity);
    repeat (rewrite ?andb_false_r, ?andb_false_l, ?andb_true_r, ?andb_true_l in H;
            simpl in H);
    discriminate H.
Qed.

Lemma PersistedQuery_of_js_of pq :
  PersistedQuery_of_js (js_of_PersistedQuery pq) = Some pq.
Proof. destruct pq as [b [ts|] h k [ ]]; reflexivity. Qed.

Lemma untimed_record_js_of pq :
  untimed_record (js_of_PersistedQuery pq) = pq.
Proof. destruct pq as [b [ts|] h k [ ]]; reflexivity. Qed.

(** The codec of the scenarios reads back the record it wrote, when the
    record holds nothing that JSON text loses. *)
Lemma scenario_parse_stringify pq text :
  json_safe (js_of_PersistedQuery pq) = true ->
  scenario_stringify pq = Returns text ->
  scenario_parse text = Returns (Some pq).
Proof.
  intros Hsafe Hwritten. unfold scenario_stringify in Hwritten.
  destruct (in_fragment (js_of_PersistedQuery pq)) eqn:Hfrag; [|discriminate].
  injection Hwritten as <-.
  unfold scenario_parse.
  rewrite (read_json_of_print_json _ _ Hsafe (record_text_printed pq)), Hfrag.
  change (js_of_PersistedQuery pq)
    with (JObj (match js_of_PersistedQuery pq with
                | JObj ps => ps | _ => [] end)).
  cbv iota.
  change (JObj (match js_of_PersistedQuery pq with
                | JObj ps => ps | _ => [] end))
    with (js_of_PersistedQuery pq).
  rewrite PersistedQuery_of_js_of, untimed_record_js_of.
  now destruct (truthy _).
Qed.


(** Every run is an execution. *)
Lemma run_exec {W : Type} (E : Env W) (p : Prog) :
  forall w, exec p (observed E p w).1 (observed E p w).2.
Proof.
  unfold observed.
  induction p as [r|key k IH|key k IH|key k IH|key value k IH|k IH
                  |key hash st k IH|context k IH]; intros w; simpl.
  - constructor.
  - destruct (env_getQueryState E key w) as [a w1].
    specialize (IH a w1). destruct (run E (k a) w1) as [[t r] w2].
    simpl in *. now constructor.
  - destruct (env_getItem E key w) as [a w1].
    specialize (IH a w1). destruct (run E (k a) w1) as [[t r] w2].
    simpl in *. now constructor.
  - destruct (env_removeItem E key w) as [a w1].
    specialize (IH a w1). destruct (run E (k a) w1) as [[t r] w2].
    simpl in *. now constructor.
  - destruct (env_setItem E key value w) as [a w1].
    specialize (IH a w1). destruct (run E (k a) w1) as [[t r] w2].
    simpl in *. now constructor.
  - destruct (env_now E w) as [now w1].
    specialize (IH now w1). destruct (run E (k now) w1) as [[t r] w2].
    simpl in *. now constructor.
  - specialize (IH (env_build E key hash st w)).
    destruct (run E k (env_build E key hash st w)) as [[t r] w2].
    simpl in *. now constructor.
  - destruct (env_queryFn E context w) as [a w1].
    specialize (IH a w1). destruct (run E (k a) w1) as [[t r] w2].
    simpl in *. now constructor.
Qed.

(** An execution by computation: the observed run is one. *)
Lemma exec_of_run {W : Type} (E : Env W) (p : Prog) (w : W) t r :
  observed E p w = (t, r) -> exec p t r.
Proof.
  intros H. pose proof (run_exec E p w) as X. rewrite H in X. exact X.
Qed.

(** ** Numbers and the two tests of the lookup *)

Lemma num_le_not_gt x y : num_le x y = true -> num_gt x y = false.
Proof. destruct x, y; simpl; try congruence; lia. Qed.


Lemma within_maxAge_not_expired now ts maxAge :
  num_le (num_sub (Fin now) ts) maxAge = true -> expired now ts maxAge = false.
Proof. apply num_le_not_gt. Qed.

Lemma busted_false pq configured :
  busted pq configured = false <-> buster pq = configured.
Proof. unfold busted. rewrite negb_false_iff. apply String.eqb_eq. Qed.

Lemma busted_true pq configured :
  busted pq configured = true <-> buster pq <> configured.
Proof. unfold busted. rewrite negb_true_iff. apply String.eqb_neq. Qed.

#[local] Arguments num_sub : simpl never.
#[local] Arguments num_gt : simpl never.
#[local] Arguments num_le : simpl never.
#[local] Arguments expired : simpl never.
#[local] Arguments busted : simpl never.

(** ** The executions of the wrapper *)

Section Facts.

Context {QC ST : Type} (hashKey : QueryKey -> string).
Context (JSON_stringify : PersistedQuery -> Outcome string).
Context (JSON_parse : string -> Outcome (option PersistedQuery)).
Variable options : StoragePersisterOptions QC ST.
Variable context : QueryFunctionContext.

Local Abbreviation key := (ctx_queryKey context).
Local Abbreviation hash := (hashKey (ctx_queryKey context)).
Local Abbreviation serialize := (the_serialize JSON_stringify options).
Local Abbreviation deserialize := (the_deserialize JSON_parse options).
Local Abbreviation invocation :=
  (createPersister hashKey JSON_stringify JSON_parse options context).

Lemma removal_after (pre : list Event) answer post :
  queryFn_calls pre = O ->
  (answer = Fulfilled tt ->
   exists fetched post',
     post = EvQueryFn context fetched :: post' /\ queryFn_calls post' = O) ->
  removes_then_fetches context hash (pre ++ EvRemoveItem hash answer :: post).
Proof. intros Hpre Hpost. exists pre, answer, post. auto. Qed.

(** C1, amended.  A record found in storage whose timestamp is truthy
    (present, not 0, not NaN), whose age at the clock reading of the
    lookup is at most maxAge and whose buster is the configured one is
    served from storage: the calls are getQueryState, getItem, Date.now
    and the build that puts the persisted state into the query cache,
    and the wrapper fulfils with the data of the persisted state.
    queryFn is not called and nothing is written to or removed from
    storage. *)
Theorem valid_record_served t r text pq ts now :
  exec invocation t r ->
  found deserialize hash t text pq ->
  timestamp pq = Some ts -> num_truthy ts = true ->
  first_now t = Some now ->
  num_le (num_sub (Fin now) ts) (the_maxAge options) = true ->
  buster pq = the_buster options ->
  (exists queryState,
      t = [EvGetQueryState key queryState;
           EvGetItem hash (Fulfilled (Some text));
           EvDateNow now;
           EvBuild key hash (state pq)])
  /\ r = Fulfilled (data (state pq)).
Proof.
  intros H (Hin & Htext & Hde) Hts Htruthy Hnow Hage Hbuster.
  apply within_maxAge_not_expired in Hage. apply busted_false in Hbuster.
  unfold createPersister in H.
  repeat exec_step.
  all: trace_in Hin.
  all: tidy.
  all: eauto.
Qed.


(** C3, amended.  A rejection of getItem or of removeItem reaches the
    caller: the wrapper rejects with the same reason.  The promise that
    setItem returns is not awaited (line 107): when it rejects, the
    wrapper still fulfils with the result of queryFn. *)
Theorem storage_rejections t r :
  exec invocation t r ->
  (forall k reason, In (EvGetItem k (Rejected reason)) t -> r = Rejected reason)
  /\ (forall k reason, In (EvRemoveItem k (Rejected reason)) t -> r = Rejected reason)
  /\ (forall k value reason,
        In (EvSetItem k value (Returns (Rejected reason))) t ->
        exists fetched,
          In (EvQueryFn context (Fulfilled fetched)) t /\ r = Fulfilled fetched).
Proof.
  intros H. unfold createPersister in H.
  repeat exec_step.
  all: repeat split.
  all: intros; match goal with Hin : In _ _ |- _ => trace_in Hin end.
  all: simplify_eq; eauto.
  all: eexists; split; [simpl; eauto 10 | reflexivity].
Qed.

(** C4, amended.  When queryFn is called and fulfils and a storage is
    configured, the invocation goes on with two readings of the clock
    and with serialize on the record of lines 109-128: the second
    reading as timestamp, the configured buster, the query key, the
    query hash, and a state with the fetched data, status 'success',
    error null, counts 0, fetchStatus 'idle' and isInvalidated false.
    When serialize returns a text, the last call is setItem under the
    query hash with that text, and when setItem returns, the wrapper
    fulfils with the fetched data, whatever becomes of the promise that
    setItem returned.  Nothing is caught: when setItem throws, the
    wrapper rejects with what was thrown; when serialize throws, the
    wrapper rejects with what was thrown and nothing is written. *)
Theorem fetched_result_persisted t r storage fetched :
  exec invocation t r ->
  o_storage options = Some storage ->
  In (EvQueryFn context (Fulfilled fetched)) t ->
  exists pre updatedAt now,
    let pq := fresh_record fetched key hash updatedAt now (the_buster options) in
    match serialize pq with
    | Returns text =>
        exists answer,
          t = pre ++ [EvDateNow updatedAt; EvDateNow now;
                      EvSetItem hash text answer]
          /\ r = match answer with
                 | Returns _ => Fulfilled fetched
                 | Throws exn => Rejected exn
                 end
    | Throws exn =>
        t = pre ++ [EvDateNow updatedAt; EvDateNow now]
        /\ r = Rejected exn
        /\ forall e, In e t -> is_write_event e = false
    end
    /\ timestamp pq = Some (Fin now)
    /\ buster pq = the_buster options
    /\ queryKey pq = key
    /\ queryHash pq = hash
    /\ data (state pq) = fetched
    /\ status (state pq) = "success"%string
    /\ error (state pq) = JNull
    /\ dataUpdateCount (state pq) = Fin 0
    /\ errorUpdateCount (state pq) = Fin 0
    /\ fetchFailureCount (state pq) = Fin 0
    /\ fetchStatus (state pq) = "idle"%string
    /\ isInvalidated (state pq) = false.
Proof.
  intros H Hst Hin. unfold createPersister in H. rewrite Hst in H.
  repeat exec_step.
  all: trace_in Hin.
  all: simplify_eq.
  all: match goal with
       | Hs : the_serialize _ _ (fresh_record _ _ _ ?u ?n _) = _ |- _ =>
           eexists _, u, n; cbv zeta; rewrite Hs
       end.
  all: (split; [|repeat split; reflexivity]).
  all: try (eexists; split; [trace_tail | reflexivity]).
  all: (split; [trace_tail | split; [reflexivity | each_event; reflexivity]]).
Qed.

(** C5.  A record found in storage whose buster differs from the
    configured one is handled as an expired one, whatever its
    timestamp: it is removed from storage and then queryFn is called,
    exactly once. *)
Theorem busted_record_removed_then_fetched t r text pq :
  exec invocation t r ->
  found deserialize hash t text pq ->
  buster pq <> the_buster options ->
  removes_then_fetches context hash t.
Proof.
  intros H (Hin & Htext & Hde) Hbuster. apply busted_true in Hbuster.
  unfold createPersister in H.
  repeat exec_step.
  all: trace_in Hin.
  all: tidy.
  all: try (apply (removal_after [_; _; _]); [reflexivity|]).
  all: try (apply (removal_after [_; _]); [reflexivity|]).
  all: intros; simplify_eq; eauto.
Qed.

(** C6, amended.  When the text found in storage deserializes to a
    record without timestamp, the record is removed from storage and
    then queryFn is called.  When [deserialize] throws on the text
    found, the invocation is lost: the wrapper rejects with what was
    thrown, nothing is removed and queryFn is not called.  It is lost as
    well when [deserialize] returns null or undefined: line 82 throws a
    TypeError on reading the timestamp. *)
Theorem record_without_timestamp t r text :
  exec invocation t r ->
  In (EvGetItem hash (Fulfilled (Some text))) t ->
  str_truthy text = true ->
  (forall pq, deserialize text = Returns (Some pq) ->
              timestamp pq = None ->
              removes_then_fetches context hash t)
  /\ (forall exn, deserialize text = Throws exn ->
                  r = Rejected exn
                  /\ queryFn_calls t = O
                  /\ forall e, In e t -> is_remove_event e = false)
  /\ (deserialize text = Returns None ->
      r = Rejected TypeError
      /\ queryFn_calls t = O
      /\ forall e, In e t -> is_remove_event e = false).
Proof.
  intros H Hin Htext. unfold createPersister in H.
  repeat exec_step.
  all: trace_in Hin.
  all: tidy.
  all: (split; [|split]); intros; tidy.
  all: try (apply (removal_after [_; _]); [reflexivity|]).
  all: try (intros; simplify_eq; eauto; fail).
  all: (split; [reflexivity|split; [reflexivity|each_event; reflexivity]]).
Qed.

(** C7.  Without a storage the calls of an invocation are getQueryState
    and queryFn, once; there is no call of getItem, setItem or
    removeItem, and the wrapper settles as queryFn did. *)
Theorem no_storage_fetch_only t r :
  o_storage options = None ->
  exec invocation t r ->
  exists queryState answer,
    t = [EvGetQueryState key queryState; EvQueryFn context answer]
    /\ r = answer
    /\ queryFn_calls t = 1%nat
    /\ forall e, In e t -> is_storage_event e = false.
Proof.
  intros Hst H. unfold createPersister in H. rewrite Hst in H.
  repeat exec_step.
  all: tidy.
  all: eexists _, _; repeat split.
  all: intros e He; trace_in He; subst; reflexivity.
Qed.

(** C9.  When queryFn rejects, the wrapper rejects with the same
    reason, the rejected call is the last call of the invocation, and
    no call of the invocation is a setItem: storage stays as the lookup
    left it. *)
Theorem fetch_rejection_propagates t r reason :
  exec invocation t r ->
  In (EvQueryFn context (Rejected reason)) t ->
  r = Rejected reason
  /\ (exists pre, t = pre ++ [EvQueryFn context (Rejected reason)]
                  /\ forall e, In e pre -> is_queryFn_event e = false)
  /\ forall e, In e t -> is_write_event e = false.
Proof.
  intros H Hin. unfold createPersister in H.
  repeat exec_step.
  all: trace_in Hin.
  all: simplify_eq.
  all: split; [reflexivity|split].
  all: try (intros e He; trace_in He; subst; reflexivity).
  - eexists [_; _; _; _]. split; [reflexivity|].
    intros e He; trace_in He; subst; reflexivity.
  - eexists [_; _; _]. split; [reflexivity|].
    intros e He; trace_in He; subst; reflexivity.
  - eexists [_; _]. split; [reflexivity|].
    intros e He; trace_in He; subst; reflexivity.
  - eexists [_]. split; [reflexivity|].
    intros e He; trace_in He; subst; reflexivity.
Qed.

(** C10.  A record found in storage whose timestamp is present and
    falsy (0 or NaN) is handled as a record without timestamp: it is
    removed from storage, without a reading of the clock before the
    removal, and then queryFn is called. *)
Theorem falsy_timestamp_is_missing t r text pq ts :
  exec invocation t r ->
  found deserialize hash t text pq ->
  timestamp pq = Some ts -> num_truthy ts = false ->
  removes_then_fetches context hash t
  /\ exists queryState answer post,
       t = EvGetQueryState key queryState
             :: EvGetItem hash (Fulfilled (Some text))
             :: EvRemoveItem hash answer :: post.
Proof.
  intros H (Hin & Htext & Hde) Hts Hfalsy.
  unfold createPersister in H.
  repeat exec_step.
  all: trace_in Hin.
  all: tidy.
  all: split; [apply (removal_after [_; _]); [reflexivity|] | eauto].
  all: intros; simplify_eq; eauto.
Qed.

End Facts.

(** ** The scenarios, run *)

Lemma run_served :
  invoke options_v1
    (world (holding (record_text (persisted (Some (Fin (t0 - 500))) "v1")))
       (Fulfilled fresh) None)
  = (served_trace (persisted (Some (Fin (t0 - 500))) "v1"), Fulfilled cached).
Proof. vm_compute. reflexivity. Qed.

Lemma run_expired :
  invoke options_v1
    (world (holding (record_text (persisted (Some (Fin (t0 - 2000))) "v1")))
       (Fulfilled fresh) None)
  = (tested_and_removed_trace (persisted (Some (Fin (t0 - 2000))) "v1"),
     Fulfilled fresh).
Proof. vm_compute. reflexivity. Qed.

Lemma run_busted :
  invoke options_v1
    (world (holding (record_text (persisted (Some (Fin (t0 - 500))) "v0")))
       (Fulfilled fresh) None)
  = (tested_and_removed_trace (persisted (Some (Fin (t0 - 500))) "v0"),
     Fulfilled fresh).
Proof. vm_compute. reflexivity. Qed.

Lemma run_without_timestamp :
  invoke options_v1
    (world (holding (record_text (persisted None "v1")))
       (Fulfilled fresh) None)
  = (removed_trace (persisted None "v1"), Fulfilled fresh).
Proof. vm_compute. reflexivity. Qed.

Lemma run_empty_object :
  invoke options_v1 (world (holding "{}") (Fulfilled fresh) None)
  = ([EvGetQueryState todos_key None;
      EvGetItem todos_hash (Fulfilled (Some "{}"%string));
      EvRemoveItem todos_hash (Fulfilled tt)]
     ++ fetch_and_write t0 (t0 + 1) (Returns (Fulfilled tt)),
     Fulfilled fresh).
Proof. vm_compute. reflexivity. Qed.

Lemma run_zero_timestamp (options : StoragePersisterOptions unit unit) :
  options = options_v1 \/ options = options_forever ->
  invoke options
    (world (holding (record_text (persisted (Some (Fin 0)) "v1")))
       (Fulfilled fresh) None)
  = (removed_trace (persisted (Some (Fin 0)) "v1"), Fulfilled fresh).
Proof. intros [-> | ->]; vm_compute; reflexivity. Qed.

Lemma run_write_rejected :
  invoke options_v1 (world ∅ (Fulfilled fresh) (Some QuotaExceededError))
  = (miss_trace (Returns (Rejected QuotaExceededError)), Fulfilled fresh).
Proof. vm_compute. reflexivity. Qed.

Lemma run_fetch_rejected :
  invoke options_v1 (world ∅ (Rejected NetworkError) None)
  = ([EvGetQueryState todos_key None;
      EvGetItem todos_hash (Fulfilled None);
      EvQueryFn todos_context (Rejected NetworkError)],
     Rejected NetworkError).
Proof. vm_compute. reflexivity. Qed.

Lemma run_no_storage :
  invoke options_no_storage (world ∅ (Fulfilled fresh) None)
  = ([EvGetQueryState todos_key None; EvQueryFn todos_context (Fulfilled fresh)],
     Fulfilled fresh).
Proof. vm_compute. reflexivity. Qed.

Lemma run_setItem_throws :
  invoke options_v1 full_storage
  = (miss_trace (Throws QuotaExceededError), Rejected QuotaExceededError).
Proof. vm_compute. reflexivity. Qed.

Lemma run_serialize_throws :
  invoke options_unserializable (world ∅ (Fulfilled fresh) None)
  = ([EvGetQueryState todos_key None;
      EvGetItem todos_hash (Fulfilled None);
      EvQueryFn todos_context (Fulfilled fresh);
      EvDateNow t0;
      EvDateNow (t0 + 1)],
     Rejected TypeError).
Proof. vm_compute. reflexivity. Qed.

(** ** The theorems at the scenarios *)

Lemma valid_record_served_witness :
  let pq := persisted (Some (Fin (t0 - 500))) "v1" in
  let t := served_trace pq in
  exec (todos_invocation options_v1) t (Fulfilled cached)
  /\ found (the_deserialize scenario_parse options_v1) todos_hash t
           (record_text pq) pq
  /\ timestamp pq = Some (Fin (t0 - 500))
  /\ num_truthy (Fin (t0 - 500)) = true
  /\ first_now t = Some t0
  /\ num_le (num_sub (Fin t0) (Fin (t0 - 500))) (the_maxAge options_v1) = true
  /\ buster pq = the_buster options_v1
  /\ (exists queryState,
         t = [EvGetQueryState todos_key queryState;
              EvGetItem todos_hash (Fulfilled (Some (record_text pq)));
              EvDateNow t0;
              EvBuild todos_key todos_hash (state pq)])
  /\ Fulfilled cached = Fulfilled (data (state pq)).
Proof.
  intros pq t.
  assert (Hexec : exec (todos_invocation options_v1)
                    t (Fulfilled cached))
    by exact (exec_of_run _ _ _ _ _ run_served).
  assert (Hfound : found (the_deserialize scenario_parse options_v1) todos_hash t
           (record_text pq) pq).
  { split; [right; left; reflexivity|].
    split; computed. }
  split; [exact Hexec|]. split; [exact Hfound|].
  split; [reflexivity|]. split; [computed|]. split; [reflexivity|].
  split; [computed|]. split; [reflexivity|].
  apply (valid_record_served hashKey_json scenario_stringify
             scenario_parse options_v1 todos_context
           t (Fulfilled cached) (record_text pq) pq (Fin (t0 - 500)) t0
           Hexec Hfound); try reflexivity; computed.
Defined.


Lemma storage_rejections_witness :
  let t := miss_trace (Returns (Rejected QuotaExceededError)) in
  exec (todos_invocation options_v1) t (Fulfilled fresh)
  /\ (forall k reason, In (EvGetItem k (Rejected reason)) t ->
                       Fulfilled fresh = Rejected reason)
  /\ (forall k reason, In (EvRemoveItem k (Rejected reason)) t ->
                       Fulfilled fresh = Rejected reason)
  /\ (forall k value reason,
         In (EvSetItem k value (Returns (Rejected reason))) t ->
         exists fetched,
           In (EvQueryFn todos_context (Fulfilled fetched)) t
           /\ Fulfilled fresh = Fulfilled fetched).
Proof.
  intros t.
  assert (Hexec : exec (todos_invocation options_v1)
                    t (Fulfilled fresh))
    by exact (exec_of_run _ _ _ _ _ run_write_rejected).
  split; [exact Hexec|].
  exact (storage_rejections hashKey_json scenario_stringify
             scenario_parse options_v1 todos_context
           t (Fulfilled fresh) Hexec).
Defined.

Lemma fetched_result_persisted_witness :
  let t := tested_and_removed_trace (persisted (Some (Fin (t0 - 2000))) "v1") in
  exec (todos_invocation options_v1) t (Fulfilled fresh)
  /\ o_storage options_v1 = Some tt
  /\ In (EvQueryFn todos_context (Fulfilled fresh)) t
  /\ exists pre updatedAt now,
       let pq := fresh_record fresh todos_key todos_hash updatedAt now
                   (the_buster options_v1) in
       match the_serialize scenario_stringify options_v1 pq with
       | Returns text =>
           exists answer,
             t = pre ++ [EvDateNow updatedAt; EvDateNow now;
                         EvSetItem todos_hash text answer]
             /\ Fulfilled fresh = match answer with
                                  | Returns _ => Fulfilled fresh
                                  | Throws exn => Rejected exn
                                  end
       | Throws exn =>
           t = pre ++ [EvDateNow updatedAt; EvDateNow now]
           /\ Fulfilled fresh = Rejected exn
           /\ forall e, In e t -> is_write_event e = false
       end.
Proof.
  intros t.
  assert (Hexec : exec (todos_invocation options_v1) t (Fulfilled fresh))
    by exact (exec_of_run _ _ _ _ _ run_expired).
  assert (Hin : In (EvQueryFn todos_context (Fulfilled fresh)) t)
    by (do 4 right; left; reflexivity).
  split; [exact Hexec|]. split; [reflexivity|]. split; [exact Hin|].
  destruct (fetched_result_persisted hashKey_json scenario_stringify
              scenario_parse options_v1 todos_context
              t (Fulfilled fresh) tt fresh Hexec eq_refl Hin)
    as (pre & updatedAt & now & Hlast & _).
  exists pre, updatedAt, now. exact Hlast.
Defined.

Lemma busted_record_removed_then_fetched_witness :
  let pq := persisted (Some (Fin (t0 - 500))) "v0" in
  let t := tested_and_removed_trace pq in
  exec (todos_invocation options_v1) t (Fulfilled fresh)
  /\ found (the_deserialize scenario_parse options_v1) todos_hash t
           (record_text pq) pq
  /\ buster pq <> the_buster options_v1
  /\ removes_then_fetches todos_context todos_hash t.
Proof.
  intros pq t.
  assert (Hexec : exec (todos_invocation options_v1)
                    t (Fulfilled fresh))
    by exact (exec_of_run _ _ _ _ _ run_busted).
  assert (Hfound : found (the_deserialize scenario_parse options_v1) todos_hash t
           (record_text pq) pq).
  { split; [right; left; reflexivity|].
    split; computed. }
  assert (Hbuster : buster pq <> the_buster options_v1) by discriminate.
  split; [exact Hexec|]. split; [exact Hfound|]. split; [exact Hbuster|].
  exact (busted_record_removed_then_fetched hashKey_json scenario_stringify
             scenario_parse options_v1 todos_context
           t (Fulfilled fresh) (record_text pq) pq Hexec Hfound Hbuster).
Defined.

Lemma record_without_timestamp_witness :
  let pq := persisted None "v1" in
  let t := removed_trace pq in
  exec (todos_invocation options_v1) t (Fulfilled fresh)
  /\ In (EvGetItem todos_hash (Fulfilled (Some (record_text pq)))) t
  /\ str_truthy (record_text pq) = true
  /\ the_deserialize scenario_parse options_v1 (record_text pq)
     = Returns (Some pq)
  /\ timestamp pq = None
  /\ removes_then_fetches todos_context todos_hash t.
Proof.
  intros pq t.
  assert (Hexec : exec (todos_invocation options_v1)
                    t (Fulfilled fresh))
    by exact (exec_of_run _ _ _ _ _ run_without_timestamp).
  assert (Hin : In (EvGetItem todos_hash (Fulfilled (Some (record_text pq)))) t)
    by (right; left; reflexivity).
  assert (Htext : str_truthy (record_text pq) = true) by computed.
  assert (Hde : the_deserialize scenario_parse options_v1 (record_text pq)
                = Returns (Some pq))
    by computed.
  split; [exact Hexec|]. split; [exact Hin|]. split; [exact Htext|].
  split; [exact Hde|]. split; [reflexivity|].
  exact (proj1 (record_without_timestamp hashKey_json scenario_stringify
             scenario_parse options_v1 todos_context
                  t (Fulfilled fresh) (record_text pq) Hexec Hin Htext)
           pq Hde eq_refl).
Defined.

Lemma no_storage_fetch_only_witness :
  let t := [EvGetQueryState todos_key None; EvQueryFn todos_context (Fulfilled fresh)] in
  o_storage options_no_storage = None
  /\ exec (todos_invocation options_no_storage) t (Fulfilled fresh)
  /\ exists queryState answer,
       t = [EvGetQueryState todos_key queryState; EvQueryFn todos_context answer]
       /\ Fulfilled fresh = answer
       /\ queryFn_calls t = 1%nat
       /\ forall e, In e t -> is_storage_event e = false.
Proof.
  intros t.
  assert (Hexec : exec (todos_invocation options_no_storage)
                    t (Fulfilled fresh))
    by exact (exec_of_run _ _ _ _ _ run_no_storage).
  split; [reflexivity|]. split; [exact Hexec|].
  exact (no_storage_fetch_only hashKey_json scenario_stringify
             scenario_parse options_no_storage todos_context
           t (Fulfilled fresh) eq_refl Hexec).
Defined.

Lemma fetch_rejection_propagates_witness :
  let t := [EvGetQueryState todos_key None;
            EvGetItem todos_hash (Fulfilled None);
            EvQueryFn todos_context (Rejected NetworkError)] in
  exec (todos_invocation options_v1) t (Rejected NetworkError)
  /\ In (EvQueryFn todos_context (Rejected NetworkError)) t
  /\ @Rejected JsVal NetworkError = Rejected NetworkError
  /\ (exists pre, t = pre ++ [EvQueryFn todos_context (Rejected NetworkError)]
                  /\ forall e, In e pre -> is_queryFn_event e = false)
  /\ forall e, In e t -> is_write_event e = false.
Proof.
  intros t.
  assert (Hexec : exec (todos_invocation options_v1)
                    t (Rejected NetworkError))
    by exact (exec_of_run _ _ _ _ _ run_fetch_rejected).
  assert (Hin : In (EvQueryFn todos_context (Rejected NetworkError)) t)
    by (do 2 right; left; reflexivity).
  split; [exact Hexec|]. split; [exact Hin|].
  exact (fetch_rejection_propagates hashKey_json scenario_stringify
             scenario_parse options_v1 todos_context
           t (Rejected NetworkError) NetworkError Hexec Hin).
Defined.

Lemma falsy_timestamp_is_missing_witness :
  let pq := persisted (Some (Fin 0)) "v1" in
  let t := removed_trace pq in
  exec (todos_invocation options_v1) t (Fulfilled fresh)
  /\ found (the_deserialize scenario_parse options_v1) todos_hash t
           (record_text pq) pq
  /\ timestamp pq = Some (Fin 0)
  /\ num_truthy (Fin 0) = false
  /\ removes_then_fetches todos_context todos_hash t
  /\ exists queryState answer post,
       t = EvGetQueryState todos_key queryState
             :: EvGetItem todos_hash (Fulfilled (Some (record_text pq)))
             :: EvRemoveItem todos_hash answer :: post.
Proof.
  intros pq t.
  assert (Hexec : exec (todos_invocation options_v1)
                    t (Fulfilled fresh))
    by exact (exec_of_run _ _ _ _ _ (run_zero_timestamp options_v1 (or_introl eq_refl))).
  assert (Hfound : found (the_deserialize scenario_parse options_v1) todos_hash t
           (record_text pq) pq).
  { split; [right; left; reflexivity|].
    split; computed. }
  split; [exact Hexec|]. split; [exact Hfound|].
  split; [reflexivity|]. split; [reflexivity|].
  exact (falsy_timestamp_is_missing hashKey_json scenario_stringify
             scenario_parse options_v1 todos_context
           t (Fulfilled fresh) (record_text pq) pq (Fin 0)
           Hexec Hfound eq_refl eq_refl).
Defined.


(** ** Where the specification and the code part *)

(** C1, as stated, fails.  Options: a storage, buster 'v1', maxAge
    Infinity, serialize and deserialize left out (the codec of the
    scenarios stands for the defaults).  The storage holds, under the
    hash of the key ["todos"], the JSON text of a record with timestamp
    0 and buster 'v1'; the query cache is empty; Date.now() is t0.  The
    record has a timestamp, its age t0 - 0 is at most maxAge, its buster
    is the configured one.  It is not served: line 82 finds the
    timestamp falsy, the record is removed from storage, queryFn is
    called and a new record is written. *)
Lemma zero_timestamp_not_served :
  let pq := persisted (Some (Fin 0)) "v1" in
  timestamp pq = Some (Fin 0)
  /\ num_le (num_sub (Fin t0) (Fin 0)) (the_maxAge options_forever) = true
  /\ buster pq = the_buster options_forever
  /\ the_deserialize scenario_parse options_forever (record_text pq)
     = Returns (Some pq)
  /\ invoke options_forever
       (world (holding (record_text pq)) (Fulfilled fresh) None)
     = ([EvGetQueryState todos_key None;
         EvGetItem todos_hash (Fulfilled (Some (record_text pq)));
         EvRemoveItem todos_hash (Fulfilled tt);
         EvQueryFn todos_context (Fulfilled fresh);
         EvDateNow t0;
         EvDateNow (t0 + 1);
         EvSetItem todos_hash
           (record_text (fresh_record fresh todos_key todos_hash t0 (t0 + 1) "v1"))
           (Returns (Fulfilled tt))],
        Fulfilled fresh).
Proof.
  intros pq. split; [reflexivity|]. split; [computed|]. split; [reflexivity|].
  split; [computed|].
  exact (run_zero_timestamp options_forever (or_intror eq_refl)).
Qed.

(** C3, as stated, fails for setItem.  Options: a storage, buster 'v1',
    maxAge 1000.  The storage is empty and the promise its setItem
    returns rejects with a QuotaExceededError; queryFn fulfils.  Line 107
    does not await that promise: the wrapper fulfils with the fetched
    data. *)
Lemma setItem_rejection_not_propagated :
  invoke options_v1 (world ∅ (Fulfilled fresh) (Some QuotaExceededError))
  = ([EvGetQueryState todos_key None;
      EvGetItem todos_hash (Fulfilled None);
      EvQueryFn todos_context (Fulfilled fresh);
      EvDateNow t0;
      EvDateNow (t0 + 1);
      EvSetItem todos_hash
        (record_text (fresh_record fresh todos_key todos_hash t0 (t0 + 1) "v1"))
        (Returns (Rejected QuotaExceededError))],
     Fulfilled fresh).
Proof. exact run_write_rejected. Qed.

(** C4, as stated, fails.  Options: a storage, buster 'v1', maxAge
    1000.  The storage is empty and synchronous, and its setItem throws
    a QuotaExceededError; queryFn fulfils with 'fresh'.  setItem is
    called with the text of the record, and the wrapper does not return
    the fetch result: it rejects with the error.  With a serialize that
    throws (as JSON.stringify does on a result that holds a BigInt),
    setItem is not called, nothing is written and the wrapper rejects as
    well. *)
Lemma thrown_write_loses_the_result :
  w_fetch full_storage = Fulfilled fresh
  /\ o_storage options_v1 = Some tt
  /\ invoke options_v1 full_storage
     = ([EvGetQueryState todos_key None;
         EvGetItem todos_hash (Fulfilled None);
         EvQueryFn todos_context (Fulfilled fresh);
         EvDateNow t0;
         EvDateNow (t0 + 1);
         EvSetItem todos_hash
           (record_text (fresh_record fresh todos_key todos_hash t0 (t0 + 1) "v1"))
           (Throws QuotaExceededError)],
        Rejected QuotaExceededError)
  /\ o_storage options_unserializable = Some tt
  /\ invoke options_unserializable (world ∅ (Fulfilled fresh) None)
     = ([EvGetQueryState todos_key None;
         EvGetItem todos_hash (Fulfilled None);
         EvQueryFn todos_context (Fulfilled fresh);
         EvDateNow t0;
         EvDateNow (t0 + 1)],
        Rejected TypeError).
Proof.
  split; [reflexivity|]. split; [reflexivity|].
  split; [exact run_setItem_throws|]. split; [reflexivity|].
  exact run_serialize_throws.
Qed.

(** C6, as stated, fails in its last part.  Options: a storage, buster
    'v1', maxAge 1000, serialize and deserialize left out (the reader of
    the scenarios stands for JSON.parse).  The storage holds under the
    hash of the key the text [{], which is not JSON: JSON.parse throws a
    SyntaxError on line 80 and the wrapper rejects with it.  With the
    stored text [null], JSON.parse returns null and line 82 throws a
    TypeError.  Both times the item stays in storage and queryFn is not
    called. *)
Lemma malformed_text_is_fatal :
  read_json "{" = PSyntaxError
  /\ invoke options_v1 (world (holding "{") (Fulfilled fresh) None)
     = ([EvGetQueryState todos_key None;
         EvGetItem todos_hash (Fulfilled (Some "{"%string))],
        Rejected SyntaxError)
  /\ read_json "null" = POk JNull []
  /\ invoke options_v1 (world (holding "null") (Fulfilled fresh) None)
     = ([EvGetQueryState todos_key None;
         EvGetItem todos_hash (Fulfilled (Some "null"%string))],
        Rejected TypeError).
Proof. repeat split; computed. Qed.

(** * Further properties *)

(** ** The paths the claims leave out, and the converses *)

Section Extras.

Context {QC ST : Type} (hashKey : QueryKey -> string).
Context (JSON_stringify : PersistedQuery -> Outcome string).
Context (JSON_parse : string -> Outcome (option PersistedQuery)).
Variable options : StoragePersisterOptions QC ST.
Variable context : QueryFunctionContext.

Local Abbreviation key := (ctx_queryKey context).
Local Abbreviation hash := (hashKey (ctx_queryKey context)).
Local Abbreviation serialize := (the_serialize JSON_stringify options).
Local Abbreviation deserialize := (the_deserialize JSON_parse options).
Local Abbreviation invocation :=
  (createPersister hashKey JSON_stringify JSON_parse options context).

(** X1.  When the query cache holds data for the key (a truthy value),
    the invocation does not look into storage: after getQueryState it
    calls queryFn, once, and no call is a getItem, a removeItem or a
    build (line 77 skips lines 78-102). *)
Theorem cached_data_skips_lookup t r k st :
  exec invocation t r ->
  In (EvGetQueryState k (Some st)) t ->
  truthy (data st) = true ->
  (exists answer rest,
      t = EvGetQueryState key (Some st) :: EvQueryFn context answer :: rest
      /\ queryFn_calls rest = O)
  /\ forall e, In e t -> is_lookup_event e = false.
Proof.
  intros H Hin Hdata. unfold createPersister in H.
  repeat exec_step.
  all: trace_in Hin.
  all: tidy.
  all: try (unfold no_data in *; rewrite Hdata in *; discriminate).
  all: (split; [eexists _, _; split; reflexivity|]).
  all: each_event; reflexivity.
Qed.


(** X2.  Cached data that is falsy (0, the empty string, false, null)
    counts as no data on line 77: with a storage, the call after
    getQueryState is getItem under the query hash. *)
Theorem falsy_cached_data_is_no_data t r k st storage :
  exec invocation t r ->
  o_storage options = Some storage ->
  In (EvGetQueryState k (Some st)) t ->
  truthy (data st) = false ->
  exists answer rest,
    t = EvGetQueryState key (Some st) :: EvGetItem hash answer :: rest.
Proof.
  intros H Hst Hin Hdata. unfold createPersister in H. rewrite Hst in H.
  repeat exec_step.
  all: trace_in Hin.
  all: tidy.
  all: try (eexists _, _; reflexivity).
  all: unfold no_data in *; rewrite Hdata in *; discriminate.
Qed.

(** X3.  When getItem fulfils with nothing (null, undefined) or with
    the empty string, the text is not deserialized and nothing is
    removed or built: the next call is queryFn, and it is the only call
    of queryFn (lines 78-79, 104). *)
Theorem lookup_miss_fetches t r k stored :
  exec invocation t r ->
  In (EvGetItem k (Fulfilled stored)) t ->
  stored_truthy stored = None ->
  (exists queryState answer rest,
      t = EvGetQueryState key queryState
            :: EvGetItem hash (Fulfilled stored)
            :: EvQueryFn context answer :: rest
      /\ queryFn_calls rest = O)
  /\ forall e, In e t -> is_remove_event e = false /\ is_build_event e = false.
Proof.
  intros H Hin Hmiss. unfold createPersister in H.
  repeat exec_step.
  all: trace_in Hin.
  all: tidy.
  all: (split; [eexists _, _, _; split; reflexivity|]).
  all: each_event; split; reflexivity.
Qed.

(** X4.  A build happens only for a record found in storage whose
    timestamp is truthy, which the expiry test of line 83 passed at the
    first reading of the clock, and whose buster is the configured one;
    the state built is the state of that record, for the key and the
    hash of the invocation.  The wrapper then fulfils with the data of
    that state, without a call of queryFn, a write or a removal. *)
Theorem served_only_if_valid t r k h st :
  exec invocation t r ->
  In (EvBuild k h st) t ->
  (exists text pq ts now,
      found deserialize hash t text pq
      /\ timestamp pq = Some ts /\ num_truthy ts = true
      /\ first_now t = Some now
      /\ expired now ts (the_maxAge options) = false
      /\ buster pq = the_buster options
      /\ st = state pq)
  /\ k = key /\ h = hash
  /\ r = Fulfilled (data st)
  /\ queryFn_calls t = O
  /\ forall e, In e t -> is_write_event e = false /\ is_remove_event e = false.
Proof.
  intros H Hin. unfold createPersister in H.
  repeat exec_step.
  all: trace_in Hin.
  all: tidy.
  split.
  - eexists _, _, _, _.
    split; [split; [right; left; reflexivity|split; eassumption]|].
    split; [eassumption|]. split; [assumption|]. split; [reflexivity|].
    split; [assumption|]. split; [now apply busted_false|reflexivity].
  - do 4 (split; [reflexivity|]). each_event; split; reflexivity.
Qed.

(** X5.  A removal happens only under the query hash and only for a
    record found in storage that has no truthy timestamp, or is expired
    at the first reading of the clock, or has another buster; an
    invocation that removes does not build. *)
Theorem removed_only_if_invalid t r k answer :
  exec invocation t r ->
  In (EvRemoveItem k answer) t ->
  k = hash
  /\ (exists text pq,
         found deserialize hash t text pq
         /\ (timestamp_truthy pq = None
             \/ exists ts now,
                  timestamp_truthy pq = Some ts
                  /\ first_now t = Some now
                  /\ (expired now ts (the_maxAge options) = true
                      \/ buster pq <> the_buster options)))
  /\ forall e, In e t -> is_build_event e = false.
Proof.
  intros H Hin. unfold createPersister in H.
  repeat exec_step.
  all: trace_in Hin.
  all: simplify_eq.
  all: split; [reflexivity|split].
  all: try (each_event; reflexivity).
  all: tidy.
  all: eexists _, _; split;
    [split; [right; left; reflexivity|split; eassumption]|].
  all: first
         [ left; ts_goal; reflexivity
         | right; eexists _, _;
           split; [ts_goal; reflexivity|];
           split; [reflexivity|];
           first [left; assumption | right; now apply busted_true] ].
Qed.


(** X6.  A call of setItem happens only as the last call, after a call
    of queryFn that fulfilled and two readings of the clock; it is under
    the query hash, and its text is what serialize returned for the
    record of lines 109-128 with the fetched data and the second
    reading.  When the call returns, the wrapper fulfils with the
    fetched data; when it throws, the wrapper rejects with what was
    thrown.  No earlier call is a write or a build. *)
Theorem written_only_after_fetch t r k text answer :
  exec invocation t r ->
  In (EvSetItem k text answer) t ->
  exists fetched pre updatedAt now,
    t = pre ++ [EvQueryFn context (Fulfilled fetched);
                EvDateNow updatedAt; EvDateNow now;
                EvSetItem hash text answer]
    /\ k = hash
    /\ serialize (fresh_record fetched key hash updatedAt now (the_buster options))
       = Returns text
    /\ r = match answer with
           | Returns _ => Fulfilled fetched
           | Throws exn => Rejected exn
           end
    /\ forall e, In e pre -> is_write_event e = false /\ is_build_event e = false.
Proof.
  intros H Hin. unfold createPersister in H.
  repeat exec_step.
  all: trace_in Hin.
  all: simplify_eq.
  all: eexists _, _, _, _.
  all: (split; [trace_tail|]).
  all: (split; [reflexivity|]).
  all: (split; [eassumption|]).
  all: (split; [reflexivity|]).
  all: each_event; split; reflexivity.
Qed.

(** X7.  When the wrapper rejects, the reason has one of these sources:
    a rejected getItem, removeItem or queryFn; what deserialize threw on
    the text found, or the TypeError of line 82 when deserialize
    returned null or undefined for it; what serialize threw on the
    record of the fetched data; what setItem threw.  An invocation that
    rejects has built nothing, and it has called setItem only when that
    call threw.  (As everywhere, deserialize returns null, undefined or
    a record of the declared type.) *)
Theorem rejection_has_a_source t r reason :
  exec invocation t r ->
  r = Rejected reason ->
  (In (EvGetItem hash (Rejected reason)) t
   \/ (exists text,
          In (EvGetItem hash (Fulfilled (Some text))) t
          /\ str_truthy text = true
          /\ (deserialize text = Throws reason
              \/ (deserialize text = Returns None /\ reason = TypeError)))
   \/ In (EvRemoveItem hash (Rejected reason)) t
   \/ In (EvQueryFn context (Rejected reason)) t
   \/ (exists pre fetched updatedAt now,
          t = pre ++ [EvQueryFn context (Fulfilled fetched);
                      EvDateNow updatedAt; EvDateNow now]
          /\ serialize (fresh_record fetched key hash updatedAt now
                          (the_buster options))
             = Throws reason)
   \/ (exists text, In (EvSetItem hash text (Throws reason)) t))
  /\ (forall e, In e t -> is_build_event e = false)
  /\ (forall k text answer, In (EvSetItem k text answer) t -> answer = Throws reason).
Proof.
  intros H Hr. unfold createPersister in H.
  repeat exec_step.
  all: simplify_eq.
  all: split;
    [|split; [each_event; reflexivity
             |let Hset := fresh "Hset" in
              intros ? ? ? Hset; trace_in Hset; simplify_eq; reflexivity]].
  all: tidy.
  all: try (left; simpl; auto 10; fail).
  all: try (right; right; left; simpl; auto 10; fail).
  all: try (right; right; right; left; simpl; auto 10; fail).
  all: try (do 4 right; left; eexists _, _, _, _;
            split; [trace_tail|eassumption]; fail).
  all: try (do 5 right; eexists; simpl; auto 10; fail).
  all: right; left; eexists; split; [right; left; reflexivity|split; [eassumption|]].
  all: first [left; assumption | right; split; [assumption|reflexivity]].
Qed.

(** X8.  When the wrapper fulfils, the value is what queryFn fulfilled
    with (and nothing was built), or it is the data of the state that
    was built (and queryFn was not called). *)
Theorem fulfilment_has_a_source t r v :
  exec invocation t r ->
  r = Fulfilled v ->
  (In (EvQueryFn context (Fulfilled v)) t
   /\ forall e, In e t -> is_build_event e = false)
  \/ (exists st,
        In (EvBuild key hash st) t /\ v = data st /\ queryFn_calls t = O).
Proof.
  intros H Hr. unfold createPersister in H.
  repeat exec_step.
  all: simplify_eq.
  all: try (left; split; [simpl; auto 10|each_event; reflexivity]; fail).
  all: right; eexists; split; [simpl; auto 10|split; reflexivity].
Qed.

(** X9.  Every call of an invocation is about its query: the storage
    calls use the query hash, getQueryState and build the query key (and
    hash), queryFn the context.  getItem, removeItem, build, queryFn and
    setItem are each called at most once, and the clock is read at most
    three times. *)
Theorem calls_concern_the_query t r :
  exec invocation t r ->
  (forall e, In e t -> concerns context hash e)
  /\ (count_events is_getItem_event t <= 1)%nat
  /\ (count_events is_remove_event t <= 1)%nat
  /\ (count_events is_build_event t <= 1)%nat
  /\ (count_events is_queryFn_event t <= 1)%nat
  /\ (count_events is_write_event t <= 1)%nat
  /\ (count_events is_clock_event t <= 3)%nat.
Proof.
  intros H. unfold createPersister in H.
  repeat exec_step.
  all: split; [each_event; simpl; auto|simpl; lia].
Qed.

End Extras.

(** ** Two invocations *)

Section Compose.

Context {QC ST : Type} (hashKey : QueryKey -> string).
Context (JSON_stringify : PersistedQuery -> Outcome string).
Context (JSON_parse : string -> Outcome (option PersistedQuery)).
Variables writer reader : StoragePersisterOptions QC ST.
Variable context : QueryFunctionContext.

Local Abbreviation key := (ctx_queryKey context).
Local Abbreviation hash := (hashKey (ctx_queryKey context)).
Local Abbreviation invocation_of options :=
  (createPersister hashKey JSON_stringify JSON_parse options context).

Lemma write_is_fresh t fetched k text answer :
  exec (invocation_of writer) t (Fulfilled fetched) ->
  In (EvSetItem k text answer) t ->
  exists updatedAt now,
    last_now t = Some now
    /\ the_serialize JSON_stringify writer
         (fresh_record fetched key hash updatedAt now (the_buster writer))
       = Returns text.
Proof.
  intros H Hin. unfold createPersister in H.
  repeat exec_step.
  all: trace_in Hin.
  all: simplify_eq.
  all: eexists _, _; split; [reflexivity|eassumption].
Qed.

(** X10.  What one invocation writes, the next one serves.  When an
    invocation of a wrapper (options [writer]) has written [text], and
    the lookup of an invocation for the same key (options [reader])
    finds [text], the deserializer of the reader reads back from [text]
    the record that the serializer of the writer wrote as [text], the
    busters agree, the timestamp written is not 0 and its age at the
    reading of the clock is at most the reader's maxAge, then the second
    invocation fulfils with the data the first one fetched, without
    calling queryFn, writing or removing. *)
Theorem persisted_result_is_restored t1 t2 r2 fetched text answer written now :
  exec (invocation_of writer) t1 (Fulfilled fetched) ->
  In (EvSetItem hash text answer) t1 ->
  last_now t1 = Some written ->
  exec (invocation_of reader) t2 r2 ->
  In (EvGetItem hash (Fulfilled (Some text))) t2 ->
  str_truthy text = true ->
  (forall updatedAt,
      let pq := fresh_record fetched key hash updatedAt written (the_buster writer) in
      the_serialize JSON_stringify writer pq = Returns text ->
      the_deserialize JSON_parse reader text = Returns (Some pq)) ->
  num_truthy (Fin written) = true ->
  the_buster writer = the_buster reader ->
  first_now t2 = Some now ->
  num_le (num_sub (Fin now) (Fin written)) (the_maxAge reader) = true ->
  r2 = Fulfilled fetched
  /\ queryFn_calls t2 = O
  /\ forall e, In e t2 -> is_write_event e = false /\ is_remove_event e = false.
Proof.
  intros H1 Hset Hlast H2 Hget Htext Hcodec Htruthy Hbuster Hnow Hage.
  destruct (write_is_fresh _ _ _ _ _ H1 Hset) as (u & n & Hn & Hwritten).
  rewrite Hn in Hlast. injection Hlast as ->.
  specialize (Hcodec u Hwritten).
  apply within_maxAge_not_expired in Hage.
  assert (Hb : busted (fresh_record fetched key hash u written (the_buster writer))
                 (the_buster reader) = false)
    by (apply busted_false; exact Hbuster).
  unfold createPersister in H2.
  repeat exec_step.
  all: trace_in Hget.
  all: tidy.
  all: try (simpl in *; congruence).
  split; [reflexivity|]. split; [reflexivity|].
  intros ev Hev.
  repeat (destruct Hev as [<-|Hev]; [split; reflexivity|]). destruct Hev.
Qed.

(** X11.  In the same situation, when the busters differ or the record
    written is older than the reader's maxAge at the reading of the
    clock, the second invocation removes the record and then calls
    queryFn, once, and builds nothing. *)
Theorem persisted_result_is_invalidated t1 t2 r2 fetched text answer written :
  exec (invocation_of writer) t1 (Fulfilled fetched) ->
  In (EvSetItem hash text answer) t1 ->
  last_now t1 = Some written ->
  exec (invocation_of reader) t2 r2 ->
  In (EvGetItem hash (Fulfilled (Some text))) t2 ->
  str_truthy text = true ->
  (forall updatedAt,
      let pq := fresh_record fetched key hash updatedAt written (the_buster writer) in
      the_serialize JSON_stringify writer pq = Returns text ->
      the_deserialize JSON_parse reader text = Returns (Some pq)) ->
  the_buster writer <> the_buster reader
  \/ (forall now, first_now t2 = Some now ->
                  num_gt (num_sub (Fin now) (Fin written)) (the_maxAge reader) = true) ->
  removes_then_fetches context hash t2
  /\ forall e, In e t2 -> is_build_event e = false.
Proof.
  intros H1 Hset Hlast H2 Hget Htext Hcodec Hinvalid.
  destruct (write_is_fresh _ _ _ _ _ H1 Hset) as (u & n & Hn & Hwritten).
  rewrite Hn in Hlast. injection Hlast as ->.
  specialize (Hcodec u Hwritten).
  assert (Hb : the_buster writer <> the_buster reader ->
               busted (fresh_record fetched key hash u written (the_buster writer))
                 (the_buster reader) = true)
    by (intros Hne; apply busted_true; exact Hne).
  unfold createPersister in H2.
  repeat exec_step.
  all: trace_in Hget.
  all: tidy.
  all: try (simpl in *; congruence).
  all: try (destruct Hinvalid as [Hne | Hexp];
            [ specialize (Hb Hne); simpl in *; congruence
            | specialize (Hexp _ eq_refl); unfold expired in *;
              simpl in *; congruence ]).
  all: split; [|each_event; reflexivity].
  all: try (eexists [_; _; _], _, _; split; [reflexivity|split; [reflexivity|]]).
  all: try (eexists [_; _], _, _; split; [reflexivity|split; [reflexivity|]]).
  all: intros; simplify_eq; eauto.
Qed.

End Compose.

(** ** The further scenarios, run *)

Lemma run_cached :
  invoke options_v1 (world_at {[ todos_hash := cached_state cached ]} ∅ t0)
  = (EvGetQueryState todos_key (Some (cached_state cached))
       :: fetch_and_write t0 (t0 + 1) (Returns (Fulfilled tt)),
     Fulfilled fresh).
Proof. computed. Qed.

Lemma run_cached_zero :
  invoke options_v1 (world_at {[ todos_hash := cached_state (JNum (Fin 0)) ]} ∅ t0)
  = (EvGetQueryState todos_key (Some (cached_state (JNum (Fin 0))))
       :: EvGetItem todos_hash (Fulfilled None)
       :: fetch_and_write t0 (t0 + 1) (Returns (Fulfilled tt)),
     Fulfilled fresh).
Proof. computed. Qed.

Lemma run_empty_string :
  invoke options_v1 (world (holding EmptyString) (Fulfilled fresh) None)
  = ([EvGetQueryState todos_key None;
      EvGetItem todos_hash (Fulfilled (Some EmptyString))]
     ++ fetch_and_write t0 (t0 + 1) (Returns (Fulfilled tt)),
     Fulfilled fresh).
Proof. computed. Qed.

Lemma run_miss :
  invoke options_v1 (world ∅ (Fulfilled fresh) None)
  = (miss_trace (Returns (Fulfilled tt)), Fulfilled fresh).
Proof. computed. Qed.

Lemma run_restored :
  invoke options_v1 (world_at ∅ (holding (record_text written_record)) (t0 + 500))
  = ([EvGetQueryState todos_key None;
      EvGetItem todos_hash (Fulfilled (Some (record_text written_record)));
      EvDateNow (t0 + 500);
      EvBuild todos_key todos_hash (state written_record)],
     Fulfilled fresh).
Proof. computed. Qed.

Lemma run_other_buster :
  invoke options_v2 (world_at ∅ (holding (record_text written_record)) (t0 + 500))
  = ([EvGetQueryState todos_key None;
      EvGetItem todos_hash (Fulfilled (Some (record_text written_record)));
      EvDateNow (t0 + 500);
      EvRemoveItem todos_hash (Fulfilled tt);
      EvQueryFn todos_context (Fulfilled fresh);
      EvDateNow (t0 + 501);
      EvDateNow (t0 + 502);
      EvSetItem todos_hash
        (record_text
           (fresh_record fresh todos_key todos_hash (t0 + 501) (t0 + 502) "v2"))
        (Returns (Fulfilled tt))],
     Fulfilled fresh).
Proof. computed. Qed.

(** ** The further properties at the scenarios *)

Lemma cached_data_skips_lookup_witness :
  let st := cached_state cached in
  let t := EvGetQueryState todos_key (Some st)
             :: fetch_and_write t0 (t0 + 1) (Returns (Fulfilled tt)) in
  exec (todos_invocation options_v1) t (Fulfilled fresh)
  /\ In (EvGetQueryState todos_key (Some st)) t
  /\ truthy (data st) = true
  /\ (exists answer rest,
         t = EvGetQueryState todos_key (Some st)
               :: EvQueryFn todos_context answer :: rest
         /\ queryFn_calls rest = O)
  /\ forall e, In e t -> is_lookup_event e = false.
Proof.
  intros st t.
  assert (Hexec : exec (todos_invocation options_v1)
                    t (Fulfilled fresh))
    by exact (exec_of_run _ _ _ _ _ run_cached).
  assert (Hin : In (EvGetQueryState todos_key (Some st)) t) by (left; reflexivity).
  split; [exact Hexec|]. split; [exact Hin|]. split; [reflexivity|].
  exact (cached_data_skips_lookup hashKey_json scenario_stringify
             scenario_parse options_v1 todos_context
           t (Fulfilled fresh) todos_key st Hexec Hin eq_refl).
Defined.

Lemma falsy_cached_data_is_no_data_witness :
  let st := cached_state (JNum (Fin 0)) in
  let t := EvGetQueryState todos_key (Some st)
             :: EvGetItem todos_hash (Fulfilled None)
             :: fetch_and_write t0 (t0 + 1) (Returns (Fulfilled tt)) in
  exec (todos_invocation options_v1) t (Fulfilled fresh)
  /\ o_storage options_v1 = Some tt
  /\ In (EvGetQueryState todos_key (Some st)) t
  /\ truthy (data st) = false
  /\ exists answer rest,
       t = EvGetQueryState todos_key (Some st)
             :: EvGetItem todos_hash answer :: rest.
Proof.
  intros st t.
  assert (Hexec : exec (todos_invocation options_v1)
                    t (Fulfilled fresh))
    by exact (exec_of_run _ _ _ _ _ run_cached_zero).
  assert (Hin : In (EvGetQueryState todos_key (Some st)) t) by (left; reflexivity).
  split; [exact Hexec|]. split; [reflexivity|]. split; [exact Hin|].
  split; [reflexivity|].
  exact (falsy_cached_data_is_no_data hashKey_json scenario_stringify
             scenario_parse options_v1 todos_context
           t (Fulfilled fresh) todos_key st tt Hexec eq_refl Hin eq_refl).
Defined.

Lemma lookup_miss_fetches_witness :
  let t := [EvGetQueryState todos_key None;
            EvGetItem todos_hash (Fulfilled (Some EmptyString))]
           ++ fetch_and_write t0 (t0 + 1) (Returns (Fulfilled tt)) in
  exec (todos_invocation options_v1) t (Fulfilled fresh)
  /\ In (EvGetItem todos_hash (Fulfilled (Some EmptyString))) t
  /\ stored_truthy (Some EmptyString) = None
  /\ the_deserialize scenario_parse options_v1 EmptyString = Throws SyntaxError
  /\ (exists queryState answer rest,
         t = EvGetQueryState todos_key queryState
               :: EvGetItem todos_hash (Fulfilled (Some EmptyString))
               :: EvQueryFn todos_context answer :: rest
         /\ queryFn_calls rest = O)
  /\ forall e, In e t -> is_remove_event e = false /\ is_build_event e = false.
Proof.
  intros t.
  assert (Hexec : exec (todos_invocation options_v1)
                    t (Fulfilled fresh))
    by exact (exec_of_run _ _ _ _ _ run_empty_string).
  assert (Hin : In (EvGetItem todos_hash (Fulfilled (Some EmptyString))) t)
    by (right; left; reflexivity).
  split; [exact Hexec|]. split; [exact Hin|]. split; [reflexivity|].
  split; [computed|].
  exact (lookup_miss_fetches hashKey_json scenario_stringify
             scenario_parse options_v1 todos_context
           t (Fulfilled fresh) todos_hash (Some EmptyString) Hexec Hin eq_refl).
Defined.

Lemma served_only_if_valid_witness :
  let pq := persisted (Some (Fin (t0 - 500))) "v1" in
  let t := served_trace pq in
  exec (todos_invocation options_v1) t (Fulfilled cached)
  /\ In (EvBuild todos_key todos_hash (state pq)) t
  /\ (exists text pq' ts now,
         found (the_deserialize scenario_parse options_v1) todos_hash t text pq'
         /\ timestamp pq' = Some ts /\ num_truthy ts = true
         /\ first_now t = Some now
         /\ expired now ts (the_maxAge options_v1) = false
         /\ buster pq' = the_buster options_v1
         /\ state pq = state pq')
  /\ queryFn_calls t = O.
Proof.
  intros pq t.
  assert (Hexec : exec (todos_invocation options_v1)
                    t (Fulfilled cached))
    by exact (exec_of_run _ _ _ _ _ run_served).
  assert (Hin : In (EvBuild todos_key todos_hash (state pq)) t)
    by (do 3 right; left; reflexivity).
  split; [exact Hexec|]. split; [exact Hin|].
  destruct (served_only_if_valid hashKey_json scenario_stringify
             scenario_parse options_v1 todos_context
              t (Fulfilled cached) todos_key todos_hash (state pq) Hexec Hin)
    as (Hvalid & _ & _ & _ & Hcalls & _).
  split; [exact Hvalid | exact Hcalls].
Defined.

Lemma removed_only_if_invalid_witness :
  let pq := persisted (Some (Fin (t0 - 2000))) "v1" in
  let t := tested_and_removed_trace pq in
  exec (todos_invocation options_v1) t (Fulfilled fresh)
  /\ In (EvRemoveItem todos_hash (Fulfilled tt)) t
  /\ (exists text pq',
         found (the_deserialize scenario_parse options_v1) todos_hash t text pq'
         /\ (timestamp_truthy pq' = None
             \/ exists ts now,
                  timestamp_truthy pq' = Some ts
                  /\ first_now t = Some now
                  /\ (expired now ts (the_maxAge options_v1) = true
                      \/ buster pq' <> the_buster options_v1)))
  /\ forall e, In e t -> is_build_event e = false.
Proof.
  intros pq t.
  assert (Hexec : exec (todos_invocation options_v1)
                    t (Fulfilled fresh))
    by exact (exec_of_run _ _ _ _ _ run_expired).
  assert (Hin : In (EvRemoveItem todos_hash (Fulfilled tt)) t)
    by (do 3 right; left; reflexivity).
  split; [exact Hexec|]. split; [exact Hin|].
  exact (proj2 (removed_only_if_invalid hashKey_json scenario_stringify
             scenario_parse options_v1 todos_context
                  t (Fulfilled fresh) todos_hash (Fulfilled tt) Hexec Hin)).
Defined.

Lemma written_only_after_fetch_witness :
  let t := miss_trace (Throws QuotaExceededError) in
  let text := record_text written_record in
  exec (todos_invocation options_v1) t (Rejected QuotaExceededError)
  /\ In (EvSetItem todos_hash text (Throws QuotaExceededError)) t
  /\ exists fetched pre updatedAt now,
       t = pre ++ [EvQueryFn todos_context (Fulfilled fetched);
                   EvDateNow updatedAt; EvDateNow now;
                   EvSetItem todos_hash text (Throws QuotaExceededError)]
       /\ the_serialize scenario_stringify options_v1
            (fresh_record fetched todos_key todos_hash updatedAt now
               (the_buster options_v1))
          = Returns text
       /\ @Rejected JsVal QuotaExceededError = Rejected QuotaExceededError.
Proof.
  intros t text.
  assert (Hexec : exec (todos_invocation options_v1) t
                    (Rejected QuotaExceededError))
    by exact (exec_of_run _ _ _ _ _ run_setItem_throws).
  assert (Hin : In (EvSetItem todos_hash text (Throws QuotaExceededError)) t)
    by (do 5 right; left; reflexivity).
  split; [exact Hexec|]. split; [exact Hin|].
  destruct (written_only_after_fetch hashKey_json scenario_stringify
              scenario_parse options_v1 todos_context
              t (Rejected QuotaExceededError) todos_hash text
              (Throws QuotaExceededError) Hexec Hin)
    as (fetched & pre & u & n & Ht & _ & Htext & Hr & _).
  exists fetched, pre, u, n. split; [exact Ht|]. split; [exact Htext|exact Hr].
Defined.

Lemma rejection_has_a_source_witness :
  let t := [EvGetQueryState todos_key None;
            EvGetItem todos_hash (Fulfilled None);
            EvQueryFn todos_context (Fulfilled fresh);
            EvDateNow t0;
            EvDateNow (t0 + 1)] in
  exec (todos_invocation options_unserializable) t (Rejected TypeError)
  /\ (exists pre fetched updatedAt now,
         t = pre ++ [EvQueryFn todos_context (Fulfilled fetched);
                     EvDateNow updatedAt; EvDateNow now]
         /\ the_serialize scenario_stringify options_unserializable
              (fresh_record fetched todos_key todos_hash updatedAt now
                 (the_buster options_unserializable))
            = Throws TypeError)
  /\ (forall e, In e t -> is_build_event e = false)
  /\ (forall k text answer,
         In (EvSetItem k text answer) t -> answer = Throws TypeError).
Proof.
  intros t.
  assert (Hexec : exec (todos_invocation options_unserializable) t
                    (Rejected TypeError))
    by exact (exec_of_run _ _ _ _ _ run_serialize_throws).
  split; [exact Hexec|].
  destruct (rejection_has_a_source hashKey_json scenario_stringify
              scenario_parse options_unserializable todos_context
              t (Rejected TypeError) TypeError Hexec eq_refl)
    as (_ & Hbuild & Hset).
  split; [|split; [exact Hbuild | exact Hset]].
  exists [EvGetQueryState todos_key None; EvGetItem todos_hash (Fulfilled None)],
    fresh, t0, (t0 + 1).
  split; reflexivity.
Defined.

Lemma fulfilment_has_a_source_witness :
  let pq := persisted (Some (Fin (t0 - 500))) "v1" in
  let t := served_trace pq in
  exec (todos_invocation options_v1) t (Fulfilled cached)
  /\ ((In (EvQueryFn todos_context (Fulfilled cached)) t
       /\ forall e, In e t -> is_build_event e = false)
      \/ (exists st,
             In (EvBuild todos_key todos_hash st) t
             /\ cached = data st /\ queryFn_calls t = O)).
Proof.
  intros pq t.
  assert (Hexec : exec (todos_invocation options_v1)
                    t (Fulfilled cached))
    by exact (exec_of_run _ _ _ _ _ run_served).
  split; [exact Hexec|].
  exact (fulfilment_has_a_source hashKey_json scenario_stringify
             scenario_parse options_v1 todos_context
           t (Fulfilled cached) cached Hexec eq_refl).
Defined.

Lemma calls_concern_the_query_witness :
  let t := tested_and_removed_trace (persisted (Some (Fin (t0 - 2000))) "v1") in
  exec (todos_invocation options_v1) t (Fulfilled fresh)
  /\ (forall e, In e t -> concerns todos_context todos_hash e)
  /\ (count_events is_getItem_event t <= 1)%nat
  /\ (count_events is_remove_event t <= 1)%nat
  /\ (count_events is_build_event t <= 1)%nat
  /\ (count_events is_queryFn_event t <= 1)%nat
  /\ (count_events is_write_event t <= 1)%nat
  /\ (count_events is_clock_event t <= 3)%nat.
Proof.
  intros t.
  assert (Hexec : exec (todos_invocation options_v1)
                    t (Fulfilled fresh))
    by exact (exec_of_run _ _ _ _ _ run_expired).
  split; [exact Hexec|].
  exact (calls_concern_the_query hashKey_json scenario_stringify
             scenario_parse options_v1 todos_context
           t (Fulfilled fresh) Hexec).
Defined.

(** The codec of the scenarios on the record of a fetch of [fresh] for
    the query of the scenarios. *)
Lemma scenario_codec_on_written (reader : StoragePersisterOptions unit unit)
    updatedAt now text :
  o_deserialize reader = None ->
  the_serialize scenario_stringify options_v1
    (fresh_record fresh todos_key todos_hash updatedAt now (the_buster options_v1))
  = Returns text ->
  the_deserialize scenario_parse reader text
  = Returns (Some (fresh_record fresh todos_key todos_hash updatedAt now
                     (the_buster options_v1))).
Proof.
  intros Hd Hwritten. unfold the_deserialize. rewrite Hd.
  change (scenario_stringify
            (fresh_record fresh todos_key todos_hash updatedAt now
               (the_buster options_v1)) = Returns text) in Hwritten.
  apply scenario_parse_stringify; [|exact Hwritten].
  unfold scenario_stringify in Hwritten.
  destruct (in_fragment _) eqn:Hfrag; [|discriminate].
  apply fresh_record_in_fragment in Hfrag as [Hu Hn].
  now apply fresh_record_safe.
Qed.

Lemma persisted_result_is_restored_witness :
  let t1 := miss_trace (Returns (Fulfilled tt)) in
  let text := record_text written_record in
  let t2 := [EvGetQueryState todos_key None;
             EvGetItem todos_hash (Fulfilled (Some text));
             EvDateNow (t0 + 500);
             EvBuild todos_key todos_hash (state written_record)] in
  exec (todos_invocation options_v1) t1 (Fulfilled fresh)
  /\ In (EvSetItem todos_hash text (Returns (Fulfilled tt))) t1
  /\ last_now t1 = Some (t0 + 1)
  /\ exec (todos_invocation options_v1) t2 (Fulfilled fresh)
  /\ In (EvGetItem todos_hash (Fulfilled (Some text))) t2
  /\ str_truthy text = true
  /\ num_truthy (Fin (t0 + 1)) = true
  /\ first_now t2 = Some (t0 + 500)
  /\ num_le (num_sub (Fin (t0 + 500)) (Fin (t0 + 1))) (the_maxAge options_v1) = true
  /\ @Fulfilled JsVal fresh = Fulfilled fresh
  /\ queryFn_calls t2 = O
  /\ forall e, In e t2 -> is_write_event e = false /\ is_remove_event e = false.
Proof.
  intros t1 text t2.
  assert (H1 : exec (todos_invocation options_v1)
                 t1 (Fulfilled fresh))
    by exact (exec_of_run _ _ _ _ _ run_miss).
  assert (Hset : In (EvSetItem todos_hash text (Returns (Fulfilled tt))) t1)
    by (do 5 right; left; reflexivity).
  assert (H2 : exec (todos_invocation options_v1)
                 t2 (Fulfilled fresh))
    by exact (exec_of_run _ _ _ _ _ run_restored).
  assert (Hget : In (EvGetItem todos_hash (Fulfilled (Some text))) t2)
    by (right; left; reflexivity).
  assert (Htext : str_truthy text = true) by computed.
  assert (Hage : num_le (num_sub (Fin (t0 + 500)) (Fin (t0 + 1)))
                   (the_maxAge options_v1) = true) by computed.
  split; [exact H1|]. split; [exact Hset|]. split; [reflexivity|].
  split; [exact H2|]. split; [exact Hget|]. split; [exact Htext|].
  split; [reflexivity|]. split; [reflexivity|]. split; [exact Hage|].
  exact (persisted_result_is_restored hashKey_json scenario_stringify
             scenario_parse options_v1 options_v1
           todos_context t1 t2 (Fulfilled fresh) fresh text (Returns (Fulfilled tt))
           (t0 + 1) (t0 + 500) H1 Hset eq_refl H2 Hget Htext
           (fun u => scenario_codec_on_written options_v1 u (t0 + 1) text eq_refl)
           eq_refl eq_refl eq_refl Hage).
Defined.

Lemma persisted_result_is_invalidated_witness :
  let t1 := miss_trace (Returns (Fulfilled tt)) in
  let text := record_text written_record in
  let t2 := [EvGetQueryState todos_key None;
             EvGetItem todos_hash (Fulfilled (Some text));
             EvDateNow (t0 + 500);
             EvRemoveItem todos_hash (Fulfilled tt);
             EvQueryFn todos_context (Fulfilled fresh);
             EvDateNow (t0 + 501);
             EvDateNow (t0 + 502);
             EvSetItem todos_hash
               (record_text
                  (fresh_record fresh todos_key todos_hash (t0 + 501) (t0 + 502) "v2"))
               (Returns (Fulfilled tt))] in
  exec (todos_invocation options_v1) t1 (Fulfilled fresh)
  /\ In (EvSetItem todos_hash text (Returns (Fulfilled tt))) t1
  /\ last_now t1 = Some (t0 + 1)
  /\ exec (todos_invocation options_v2) t2 (Fulfilled fresh)
  /\ In (EvGetItem todos_hash (Fulfilled (Some text))) t2
  /\ str_truthy text = true
  /\ the_buster options_v1 <> the_buster options_v2
  /\ removes_then_fetches todos_context todos_hash t2
  /\ forall e, In e t2 -> is_build_event e = false.
Proof.
  intros t1 text t2.
  assert (H1 : exec (todos_invocation options_v1)
                 t1 (Fulfilled fresh))
    by exact (exec_of_run _ _ _ _ _ run_miss).
  assert (Hset : In (EvSetItem todos_hash text (Returns (Fulfilled tt))) t1)
    by (do 5 right; left; reflexivity).
  assert (H2 : exec (todos_invocation options_v2)
                 t2 (Fulfilled fresh))
    by exact (exec_of_run _ _ _ _ _ run_other_buster).
  assert (Hget : In (EvGetItem todos_hash (Fulfilled (Some text))) t2)
    by (right; left; reflexivity).
  assert (Htext : str_truthy text = true) by computed.
  assert (Hne : the_buster options_v1 <> the_buster options_v2) by discriminate.
  split; [exact H1|]. split; [exact Hset|]. split; [reflexivity|].
  split; [exact H2|]. split; [exact Hget|]. split; [exact Htext|].
  split; [exact Hne|].
  exact (persisted_result_is_invalidated hashKey_json scenario_stringify
             scenario_parse options_v1 options_v2
           todos_context t1 t2 (Fulfilled fresh) fresh text (Returns (Fulfilled tt))
           (t0 + 1) H1 Hset eq_refl H2 Hget Htext
           (fun u => scenario_codec_on_written options_v2 u (t0 + 1) text eq_refl)
           (or_introl Hne)).
Defined.
